(** * Compliance Copilot web console: the requirement list controller

    A shallow embedding of the pure logic of
    [src/app/requirements/requirements-client.tsx],
    [src/app/requirements/triage-panel.tsx], [src/lib/dates.ts] and
    [src/components/ui/pagination.tsx], with the properties the
    specification states about them.

    Conventions.
    - A JavaScript string is the Rocq [string] of its UTF-8 bytes.
    - [null] and [undefined] are [None]; a present value is [Some].
    - A [Date] is its time value: milliseconds since the epoch as a [Z];
      an invalid date (time value NaN) is [None].
    - A JavaScript number that the code only uses as an integer (page
      numbers, day counts, time values) is a [Z]; the interval typed in the
      triage form goes through [Number(...)] and is a binary64 [float].
    - React state is passed explicitly; an asynchronous handler is a
      function from the state and the answers of its environment (dialogs,
      server responses) to the new state and the list of effects it
      performed. *)

From Stdlib Require Import ZArith Lia Floats Ascii Uint63.
From stdpp Require Import base option list strings gmap pretty.

Local Open Scope Z_scope.

(** ** The JavaScript runtime *)

Module Js.

(** *** Truthiness and strict equality on [string | null | undefined] *)

(** [!value]: null, undefined and the empty string are falsy. *)
Definition falsy (value : option string) : bool :=
  match value with
  | None => true
  | Some s => bool_decide (s = "")
  end.

(** [value === "literal"]. *)
Definition strict_eq (value : option string) (lit : string) : bool :=
  bool_decide (value = Some lit).

(** [value ?? fallback]. *)
Definition nullish (value : option string) (fallback : string) : string :=
  default fallback value.

(** *** White space

    [String.prototype.trim] and [parseInt] strip the code points of
    WhiteSpace and LineTerminator: U+0009..U+000D, U+0020, U+00A0, U+1680,
    U+2000..U+200A, U+2028, U+2029, U+202F, U+205F, U+3000 and U+FEFF.
    They are recognised here through their UTF-8 encodings, of one, two or
    three bytes. *)

Definition byte_of (c : ascii) : N := N_of_ascii c.

Definition ws1 (c : ascii) : bool :=
  let n := byte_of c in
  ((9 <=? n) && (n <=? 13) || (n =? 32))%N.

Definition ws2 (c1 c2 : ascii) : bool :=
  ((byte_of c1 =? 194) && (byte_of c2 =? 160))%N.

Definition ws3 (c1 c2 c3 : ascii) : bool :=
  let a := byte_of c1 in
  let b := byte_of c2 in
  let c := byte_of c3 in
  ((a =? 225) && (b =? 154) && (c =? 128)
   || (a =? 226) && (b =? 128)
        && ((128 <=? c) && (c <=? 138) || (c =? 168) || (c =? 169) || (c =? 175))
   || (a =? 226) && (b =? 129) && (c =? 159)
   || (a =? 227) && (b =? 128) && (c =? 128)
   || (a =? 239) && (b =? 187) && (c =? 191))%N.

(** Strips white space from the front of a byte sequence. With
    [backwards := true] the sequence is read from its last byte, so the
    bytes of a code point arrive in the opposite order. *)
Fixpoint strip (backwards : bool) (s : list ascii) : list ascii :=
  match s with
  | [] => []
  | c1 :: r1 =>
      if ws1 c1 then strip backwards r1
      else
        match r1 with
        | [] => s
        | c2 :: r2 =>
            if (if backwards then ws2 c2 c1 else ws2 c1 c2) then strip backwards r2
            else
              match r2 with
              | [] => s
              | c3 :: r3 =>
                  if (if backwards then ws3 c3 c2 c1 else ws3 c1 c2 c3)
                  then strip backwards r3
                  else s
              end
        end
  end.

Definition trimStart (s : string) : string :=
  String.string_of_list_ascii (strip false (String.list_ascii_of_string s)).

Definition trimEnd (s : string) : string :=
  String.string_of_list_ascii (rev (strip true (rev (String.list_ascii_of_string s)))).

(** [s.trim()]. *)
Definition trim (s : string) : string := trimEnd (trimStart s).


(** *** [split] and [join] on a one-character separator *)

(** [s.split(sep)]: the pieces between the separators; the empty string
    gives one empty piece. *)
Fixpoint split (sep : ascii) (s : string) : list string :=
  match s with
  | EmptyString => [EmptyString]
  | String c r =>
      if bool_decide (c = sep) then EmptyString :: split sep r
      else
        match split sep r with
        | piece :: pieces => String c piece :: pieces
        | [] => [String c EmptyString]
        end
  end.

(** [pieces.join(sep)]. *)
Fixpoint join (sep : ascii) (pieces : list string) : string :=
  match pieces with
  | [] => EmptyString
  | [piece] => piece
  | piece :: rest => piece +:+ String sep (join sep rest)
  end.

(** [s.startsWith(prefix)]. *)
Fixpoint startsWith (prefix s : string) : bool :=
  match prefix, s with
  | EmptyString, _ => true
  | String p prefix', String c s' => bool_decide (p = c) && startsWith prefix' s'
  | String _ _, EmptyString => false
  end.

(** *** Integer-valued Numbers

    A Number that is an integer or an infinity. A finite one is given by
    its mathematical value (the sign of a zero is not kept); NaN is kept
    apart, as [None]. *)

Inductive integer : Type :=
  | finite (value : Z)
  | pos_infinity
  | neg_infinity.

#[global] Instance integer_eq_dec : EqDecision integer.
Proof. solve_decision. Defined.

Coercion finite : Z >-> integer.

(** [Number.MAX_SAFE_INTEGER]: up to it every integer is a Number. *)
Definition MAX_SAFE_INTEGER : Z := 9007199254740991.

(** The Number for a mathematical integer. Below [2^53] in magnitude it
    is the integer itself. Above, the doubles of that size are the
    multiples of [2 ^ shift], and the nearest one is taken, a tie going
    to the even multiple; from [2 ^ 1024] on the result is an infinity. *)
Definition nearest_double (n : Z) : integer :=
  let a := Z.abs n in
  let shift := Z.max 0 (Z.log2 a - 52) in
  if shift =? 0 then finite n
  else
    let q := a / 2 ^ shift in
    let r := a mod 2 ^ shift in
    let half := 2 ^ (shift - 1) in
    let m := if (half <? r) || ((r =? half) && Z.odd q) then q + 1 else q in
    let v := m * 2 ^ shift in
    if 2 ^ 1024 <=? v then (if n <? 0 then neg_infinity else pos_infinity)
    else finite (if n <? 0 then - v else v).

(** [x < y], [Math.max(x, y)] and [Math.min(x, y)]. *)
Definition below (x y : integer) : bool :=
  match x, y with
  | finite a, finite b => a <? b
  | neg_infinity, neg_infinity => false
  | neg_infinity, _ => true
  | _, neg_infinity => false
  | finite _, pos_infinity => true
  | pos_infinity, _ => false
  end.


(** [x <= y] as a proposition. *)
Definition at_most (x y : integer) : Prop := below y x = false.

(** *** [String(x)] for an integer-valued Number [x]

    The digits are those of the integer with the fewest significant
    digits that [nearest_double] takes to [x], the closest to [x] if there
    are several, the one with the even last digit if two are as close.
    Below [10^21] they are written out, with their zeros; from [10^21] on
    the exponent notation is used. *)

(** [v] is written with digits that are read back as [x]. *)
Definition fits (x v : Z) : bool :=
  (0 <? v) && bool_decide (nearest_double v = finite x).

(** The multiple of [unit] for [x], if one of the two around [x] fits. *)
Definition candidate (x unit : Z) : option Z :=
  let low := x / unit * unit in
  let high := low + unit in
  match fits x low, fits x high with
  | true, true =>
      if x - low <? high - x then Some low
      else if high - x <? x - low then Some high
      else if Z.even (low / unit) then Some low else Some high
  | true, false => Some low
  | false, true => Some high
  | false, false => None
  end.

(** The search goes from the coarsest unit [10 ^ j] to the finest. *)
Fixpoint shortest (j : nat) (x : Z) : Z :=
  match candidate x (10 ^ Z.of_nat j) with
  | Some v => v
  | None =>
      match j with
      | O => x
      | S j' => shortest j' x
      end
  end.

(** The digits without the zeros at the end. *)
Fixpoint significant (digits : list ascii) : list ascii :=
  match digits with
  | [] => []
  | c :: rest =>
      match significant rest with
      | [] => if bool_decide (c = "0"%char) then [] else [c]
      | kept => c :: kept
      end
  end.

Definition exponent_form (v : Z) : string :=
  let digits := String.list_ascii_of_string (pretty v) in
  let exponent := pretty (Z.of_nat (length digits) - 1) in
  match significant digits with
  | [] => ""
  | [d] => String d ("e+" +:+ exponent)
  | d :: rest =>
      String d ("." +:+ String.string_of_list_ascii rest +:+ "e+" +:+ exponent)
  end.

Definition Number_toString (x : Z) : string :=
  if x =? 0 then "0"
  else
    let a := Z.abs x in
    let v := shortest (String.length (pretty a)) a in
    let text := if v <? 10 ^ 21 then pretty v else exponent_form v in
    if x <? 0 then "-" +:+ text else text.


(** *** [Number.parseInt(s, 10)]

    Leading white space is skipped, one sign is read, then the longest run
    of decimal digits; no digit gives NaN, here [None]. The digits give a
    mathematical integer, [mathInt]; the result is the Number for it. *)

Definition digit_of (c : ascii) : option Z :=
  let n := byte_of c in
  if ((48 <=? n) && (n <=? 57))%N then Some (Z.of_N n - 48) else None.

(** Reads digits from the front of [s] into the accumulator; the boolean
    tells whether a digit was seen. *)
Fixpoint read_digits (s : list ascii) (seen : bool) (acc : Z) : bool * Z :=
  match s with
  | [] => (seen, acc)
  | c :: r =>
      match digit_of c with
      | Some d => read_digits r true (10 * acc + d)
      | None => (seen, acc)
      end
  end.

Definition mathInt (s : string) : option Z :=
  let body := strip false (String.list_ascii_of_string s) in
  let '(negative, digits) :=
    match body with
    | c :: r =>
        if bool_decide (c = "-"%char) then (true, r)
        else if bool_decide (c = "+"%char) then (false, r)
        else (false, body)
    | [] => (false, body)
    end in
  match read_digits digits false 0 with
  | (true, n) => Some (if negative then - n else n)
  | (false, _) => None
  end.

Definition parseInt (s : string) : option integer := nearest_double <$> mathInt s.

(** *** [Math.round], [Math.ceil], [Math.max] on quotients of integers *)

(** [Math.round(n / d)] for [0 < d]: the floor of [n/d + 1/2]. *)
Definition round_div (n d : Z) : Z := (2 * n + d) / (2 * d).

(** [Math.ceil(n / d)] for [0 < d]. *)
Definition ceil_div (n d : Z) : Z := - ((- n) / d).

(** *** Dates

    ECMAScript's day arithmetic: [Day(t)] is the number of the UTC day of
    the time value [t], and the year, month and day of the month are
    functions of it in the proleptic Gregorian calendar. *)

Definition msPerDay : Z := 86400000.

Definition Day (t : Z) : Z := t / msPerDay.

(** Year, month (1..12) and day of the month of a day number. *)
Definition civil_from_days (day : Z) : Z * Z * Z :=
  let z := day + 719468 in
  let era := z / 146097 in
  let doe := z - era * 146097 in
  let yoe := (doe - doe / 1460 + doe / 36524 - doe / 146096) / 365 in
  let y := yoe + era * 400 in
  let doy := doe - (365 * yoe + yoe / 4 - yoe / 100) in
  let mp := (5 * doy + 2) / 153 in
  let d := doy - (153 * mp + 2) / 5 + 1 in
  let m := if mp <? 10 then mp + 3 else mp - 9 in
  (if m <=? 2 then y + 1 else y, m, d).

(** The day number of a year, month (1..12) and day of the month. *)
Definition days_from_civil (y m d : Z) : Z :=
  let y := if m <=? 2 then y - 1 else y in
  let era := y / 400 in
  let yoe := y - era * 400 in
  let doy := (153 * (if 2 <? m then m - 3 else m + 9) + 2) / 5 + d - 1 in
  let doe := yoe * 365 + yoe / 4 - yoe / 100 + doy in
  era * 146097 + doe - 719468.

(** [date.getUTCFullYear()], [date.getUTCMonth()] (0..11) and
    [date.getUTCDate()] of a valid date. *)
Definition getUTCFullYear (t : Z) : Z := (civil_from_days (Day t)).1.1.
Definition getUTCMonth (t : Z) : Z := (civil_from_days (Day t)).1.2 - 1.
Definition getUTCDate (t : Z) : Z := (civil_from_days (Day t)).2.

(** ECMAScript's MakeDay: months beyond 0..11 carry into the year. *)
Definition MakeDay (year month date : Z) : Z :=
  let ym := year + month / 12 in
  let mn := month mod 12 in
  days_from_civil ym (mn + 1) 1 + date - 1.

(** [Date.UTC(year, month, date)]: a year from 0 to 99 stands for
    1900 + year. The result is midnight of that day. (TimeClip is left
    out: the midnight of a day that holds a valid time value is in
    range.) *)
Definition Date_UTC (year month date : Z) : Z :=
  let yr := if (0 <=? year) && (year <=? 99) then 1900 + year else year in
  MakeDay yr month date * msPerDay.

(** *** Numbers from [Number(...)] *)

(** [!x] for a number: NaN and the two zeros are falsy. *)
Definition falsy_number (x : float) : bool :=
  PrimFloat.is_nan x || PrimFloat.is_zero x.

(** *** The host

    What the logic below takes from the browser without fixing it here:
    the parser behind [new Date(string)] (ISO 8601 and whatever else the
    engine accepts), [Date.prototype.toISOString], the [Intl] date
    formatter of a locale tag and the string-to-number conversion
    [Number(string)]. *)
(** ASCII upper case of one byte and of a string; the bytes of other
    code points are kept. *)
Definition ascii_upper (c : ascii) : ascii :=
  let n := byte_of c in
  if ((97 <=? n) && (n <=? 122))%N then ascii_of_N (n - 32) else c.

Fixpoint upper (s : string) : string :=
  match s with
  | EmptyString => EmptyString
  | String c r => String (ascii_upper c) (upper r)
  end.

Fixpoint ascii_only (s : string) : bool :=
  match s with
  | EmptyString => true
  | String c r => (byte_of c <? 128)%N && ascii_only r
  end.

Class Host := {
  Date_parse : string -> option Z;
  toISOString : Z -> string;
  Intl_format : string -> Z -> string;
  Number_of : string -> float;
  (** [s.toUpperCase()] follows the Unicode case mappings; on a string of
      ASCII characters it is the ASCII upper case. *)
  toUpperCase : string -> string;
  toUpperCase_ascii : ∀ s, ascii_only s = true -> toUpperCase s = upper s;
}.

(** *** [URLSearchParams]

    The decoded name/value pairs of a query string, in order; a name may
    occur more than once. *)
Module URLSearchParams.

Abbreviation t := (list (string * string)).

(** [params.get(name)]: the first value of the name, or null. *)
Fixpoint get (name : string) (params : t) : option string :=
  match params with
  | [] => None
  | (k, v) :: rest => if bool_decide (k = name) then Some v else get name rest
  end.

(** [params.delete(name)]: removes every pair of the name. *)
Definition delete (name : string) (params : t) : t :=
  filter (λ kv, kv.1 ≠ name) params.

(** [params.set(name, value)]: overwrites the first pair of the name and
    removes its other pairs, or appends a pair. *)
Fixpoint set (name value : string) (params : t) : t :=
  match params with
  | [] => [(name, value)]
  | (k, v) :: rest =>
      if bool_decide (k = name) then (name, value) :: delete name rest
      else (k, v) :: set name value rest
  end.

End URLSearchParams.

(** A [Set] of strings in insertion order, as [Array.from] lists it. *)
Definition Set_add (x : string) (elements : list string) : list string :=
  if bool_decide (x ∈ elements) then elements else elements ++ [x].

End Js.

(** ** A host to run the definitions on

    ISO 8601 calendar dates ([YYYY-MM-DD], read as UTC midnight) and
    unsigned decimal numerals; every other string is an invalid date and
    not a number. It instantiates the statements below at concrete
    inputs. *)

Module SampleHost.

Definition digits_value (cs : list ascii) : option Z :=
  foldl (λ acc c, a ← acc; d ← Js.digit_of c; Some (10 * a + d)) (Some 0) cs.

Definition parse_iso_date (s : string) : option Z :=
  match String.list_ascii_of_string s with
  | [y1; y2; y3; y4; h1; m1; m2; h2; d1; d2] =>
      if bool_decide (h1 = "-"%char) && bool_decide (h2 = "-"%char) then
        y ← digits_value [y1; y2; y3; y4];
        m ← digits_value [m1; m2];
        d ← digits_value [d1; d2];
        if (1 <=? m) && (m <=? 12) && (1 <=? d) && (d <=? 31)
        then Some (Js.days_from_civil y m d * Js.msPerDay)
        else None
      else None
  | _ => None
  end.

(** The decimal digits of [n], padded with zeros to [width]. *)
Definition padded (width : nat) (n : Z) : string :=
  let digits := pretty n in
  String.string_of_list_ascii
    (replicate (width - String.length digits) "0"%char) +:+ digits.

Definition iso_date (t : Z) : string :=
  padded 4 (Js.getUTCFullYear t) +:+ "-" +:+ padded 2 (Js.getUTCMonth t + 1)
  +:+ "-" +:+ padded 2 (Js.getUTCDate t).

Definition iso_string (t : Z) : string :=
  let ms := t mod Js.msPerDay in
  iso_date t +:+ "T" +:+ padded 2 (ms / 3600000) +:+ ":"
  +:+ padded 2 (ms / 60000 mod 60) +:+ ":" +:+ padded 2 (ms / 1000 mod 60)
  +:+ "." +:+ padded 3 (ms mod 1000) +:+ "Z".

Definition number_of_numeral (s : string) : float :=
  match String.list_ascii_of_string s with
  | [] => PrimFloat.nan
  | cs =>
      match digits_value cs with
      | Some n => PrimFloat.of_uint63 (Uint63.of_Z n)
      | None => PrimFloat.nan
      end
  end.

#[export] Instance host : Js.Host := {|
  Js.Date_parse := parse_iso_date;
  Js.toISOString := iso_string;
  Js.Intl_format := λ tag t, iso_date t +:+ " (" +:+ tag +:+ ")";
  Js.Number_of := number_of_numeral;
  Js.toUpperCase := Js.upper;
  Js.toUpperCase_ascii := λ s _, eq_refl;
|}.

End SampleHost.

(** ** [src/lib/dates.ts] *)

Module Dates.

(** [Locale] of [src/lib/i18n.ts]: the keys of the translation resources. *)
Inductive Locale := en | es.

Definition em_dash : string := "—".

Section WithHost.
Context `{Js.Host}.

(** [getFormatter]: the formatter of ["es-MX"] or ["en-US"], in UTC. *)
Definition getFormatter (locale : Locale) : Z -> string :=
  Js.Intl_format (match locale with es => "es-MX" | en => "en-US" end).

Definition formatDate (value : option string) (locale : Locale) : string :=
  match value with
  | None => em_dash
  | Some s =>
      if bool_decide (s = "") then em_dash
      else
        match Js.Date_parse s with
        | None => em_dash
        | Some date => getFormatter locale date
        end
  end.

(** [daysUntil]; [now] is the time value of [new Date()]. The result
    [None] is [null]. *)
Definition daysUntil (now : Z) (value : option string) : option Z :=
  match value with
  | None => None
  | Some s =>
      if bool_decide (s = "") then None
      else
        match Js.Date_parse s with
        | None => None
        | Some targetDate =>
            let target :=
              Js.Date_UTC (Js.getUTCFullYear targetDate) (Js.getUTCMonth targetDate)
                (Js.getUTCDate targetDate) in
            let today :=
              Js.Date_UTC (Js.getUTCFullYear now) (Js.getUTCMonth now)
                (Js.getUTCDate now) in
            let diff := target - today in
            Some (Js.round_div diff (1000 * 60 * 60 * 24))
        end
  end.

(** [typeof remaining === "number" && remaining < bound]. *)
Definition number_below (remaining : option Z) (bound : Z) : bool :=
  match remaining with
  | Some d => d <? bound
  | None => false
  end.

Definition isOverdue (now : Z) (value : option string) : bool :=
  number_below (daysUntil now value) 0.

Definition isDueWithin (now : Z) (value : option string) (days : Z) : bool :=
  match daysUntil now value with
  | None => false
  | Some remaining => (0 <=? remaining) && (remaining <=? days)
  end.

End WithHost.
End Dates.

(** ** [src/components/ui/pagination.tsx] *)

Module PaginationUi.

Definition isFirst (page : Z) : bool := page <=? 1.
Definition isLast (page pageCount : Z) : bool := pageCount <=? page.

(** [goTo(nextPage)]: the page handed to [onPageChange], if any. *)
Definition goTo (pageCount nextPage : Z) : option Z :=
  if (nextPage <? 1) || (pageCount <? nextPage) then None else Some nextPage.

(** The two buttons: disabled or not, and what a click does. *)
Definition previousDisabled (disabled : bool) (page : Z) : bool :=
  disabled || isFirst page.
Definition nextDisabled (disabled : bool) (page pageCount : Z) : bool :=
  disabled || isLast page pageCount.
Definition clickPrevious (page pageCount : Z) : option Z := goTo pageCount (page - 1).
Definition clickNext (page pageCount : Z) : option Z := goTo pageCount (page + 1).

(** The text between the buttons. *)
Definition label (page pageCount : Z) : string :=
  Js.Number_toString page +:+ " / " +:+ Js.Number_toString (Z.max pageCount 1).

End PaginationUi.

(** ** [src/app/requirements/requirements-client.tsx] *)

Module RequirementsClient.
Import Dates.

Definition PAGE_SIZE : Z := 10.

Inductive UiStatus :=
  | OPEN | NEEDS_REVIEW | NEEDS_TRIAGE | COMPLETED | ARCHIVED | OVERDUE.

#[export] Instance UiStatus_eq_dec : EqDecision UiStatus.
Proof. solve_decision. Defined.

(** The fields of [Requirement] that the controller reads. [status] is a
    string in the type, but the code guards against its absence
    ([record.status ?? "OPEN"]), so it is optional here. *)
Record Requirement := {
  id : string;
  document_name : option string;
  title_en : string;
  title_es : string;
  description_en : string;
  description_es : string;
  category : option string;
  frequency : option string;
  due_date : option string;
  status : option string;
  source_ref : option string;
  archive_state : option string;
}.

Record Pagination := {
  pagination_page : Js.integer;
  pagination_limit : Z;
  pagination_total : Z;
}.

Record RequirementsResponse := {
  items : list Requirement;
  pagination : Pagination;
}.

Inductive DueFilter := overdue | due7 | due30.
Inductive StatusFilter := active | completed | archived | triage.

#[export] Instance DueFilter_eq_dec : EqDecision DueFilter.
Proof. solve_decision. Defined.
#[export] Instance StatusFilter_eq_dec : EqDecision StatusFilter.
Proof. solve_decision. Defined.

(** The string each member of the union types is. *)
Definition DueFilter_token (f : DueFilter) : string :=
  match f with overdue => "overdue" | due7 => "due7" | due30 => "due30" end.

Definition StatusFilter_token (f : StatusFilter) : string :=
  match f with
  | active => "active" | completed => "completed"
  | archived => "archived" | triage => "triage"
  end.

Definition dueFilterOptions : list DueFilter := [overdue; due7; due30].
Definition statusFilterOptions : list StatusFilter :=
  [active; completed; archived; triage].

Definition STATUS_QUERY_MAP (f : StatusFilter) : list string :=
  match f with
  | active => ["OPEN"; "REVIEW"]
  | completed => ["DONE"; "READY"]
  | archived => []
  | triage => ["PENDING_REVIEW"]
  end.

Definition STATUS_FILTER_LABELS (f : StatusFilter) : string :=
  match f with
  | active => "Open" | completed => "Completed"
  | archived => "Archived" | triage => "Needs triage"
  end.

Definition parseDueFilters (params : option Js.URLSearchParams.t) : list DueFilter :=
  match params with
  | None => []
  | Some params =>
      let raw := Js.URLSearchParams.get "due" params in
      if Js.falsy raw then []
      else
        let tokens := Js.trim <$> Js.split "," (Js.nullish raw "") in
        filter (λ option, DueFilter_token option ∈ tokens) dueFilterOptions
  end.

(** [resolvePage]. *)
Definition resolvePage (searchParams : option Js.URLSearchParams.t) : Js.integer :=
  let pageParam := searchParams ≫= Js.URLSearchParams.get "page" in
  let parsed :=
    if Js.falsy pageParam then Some (Js.finite 1)
    else Js.parseInt (Js.nullish pageParam "") in
  match parsed with
  | None => Js.finite 1
  | Some parsed => if Js.below parsed (Js.finite 1) then Js.finite 1 else parsed
  end.

(** The tokens of the selected buckets, gathered in a [Set] in the order
    active, completed, triage. *)
Definition statusTokens (includeActive includeCompleted includeTriage : bool)
    : list string :=
  let add (include : bool) (bucket : StatusFilter) (tokens : list string) :=
    if include then foldl (λ acc value, Js.Set_add value acc) tokens (STATUS_QUERY_MAP bucket)
    else tokens in
  add includeTriage triage (add includeCompleted completed (add includeActive active [])).

(** The [queryParams] memo: what is sent to [GET /requirements]. *)
Record QueryParams := {
  query_page : Js.integer;
  query_limit : Z;
  query_due : option string;
  query_archived : option string;
  query_status : option string;
}.

Definition queryParams (requestedPage : Js.integer) (selectedDueFilters : list DueFilter)
    (selectedStatusFilters : list StatusFilter) : QueryParams :=
  let due :=
    if bool_decide (selectedDueFilters ≠ [])
    then Some (Js.join "," (DueFilter_token <$> selectedDueFilters)) else None in
  let includeArchived := bool_decide (archived ∈ selectedStatusFilters) in
  let includeActive := bool_decide (active ∈ selectedStatusFilters) in
  let includeCompleted := bool_decide (completed ∈ selectedStatusFilters) in
  let includeTriage := bool_decide (triage ∈ selectedStatusFilters) in
  let tokens := statusTokens includeActive includeCompleted includeTriage in
  {| query_page := requestedPage; query_limit := PAGE_SIZE; query_due := due;
     query_archived := if includeArchived then Some "true" else None;
     query_status :=
       if includeArchived then None
       else if includeActive || includeCompleted || includeTriage then
         if bool_decide (tokens ≠ []) then Some (Js.join "," tokens) else None
       else None |}.

(** [totalItems], [pageCount] and [currentPage] of the render;
    [requirements] is the data of the remote cache, if any. *)
Definition totalItems (requirements : option RequirementsResponse)
    (requirementRows : list Requirement) : Z :=
  match requirements with
  | Some response => pagination_total (pagination response)
  | None => Z.of_nat (length requirementRows)
  end.

Definition pageCount (requirements : option RequirementsResponse)
    (requirementRows : list Requirement) : Z :=
  Z.max 1 (Js.ceil_div (totalItems requirements requirementRows) PAGE_SIZE).


(** The argument of [updateQuery]; an absent field is [None]. *)
Record QueryPatch := {
  patch_dueFilters : option (list DueFilter);
  patch_statusFilters : option (list StatusFilter);
  patch_page : option Z;
}.

(** The query parameters [updateQuery] navigates to. *)
Definition updateQueryParams (searchParams : option Js.URLSearchParams.t)
    (next : QueryPatch) : Js.URLSearchParams.t :=
  let params := default [] searchParams in
  let params :=
    match patch_dueFilters next with
    | None => params
    | Some dueFilters =>
        if bool_decide (dueFilters = []) then Js.URLSearchParams.delete "due" params
        else Js.URLSearchParams.set "due" (Js.join "," (DueFilter_token <$> dueFilters)) params
    end in
  let params :=
    match patch_statusFilters next with
    | None => params
    | Some normalizedStatuses =>
        let includeArchived := bool_decide (archived ∈ normalizedStatuses) in
        if includeArchived then
          Js.URLSearchParams.set "archived" "true" (Js.URLSearchParams.delete "status" params)
        else
          let includeActive := bool_decide (active ∈ normalizedStatuses) in
          let includeCompleted := bool_decide (completed ∈ normalizedStatuses) in
          let includeTriage := bool_decide (triage ∈ normalizedStatuses) in
          let params :=
            if includeActive || includeCompleted || includeTriage then
              let tokens := statusTokens includeActive includeCompleted includeTriage in
              if bool_decide (tokens ≠ [])
              then Js.URLSearchParams.set "status" (Js.join "," tokens) params
              else params
            else Js.URLSearchParams.delete "status" params in
          Js.URLSearchParams.delete "archived" params
    end in
  match patch_page next with
  | None => params
  | Some page =>
      if page <=? 1 then Js.URLSearchParams.delete "page" params
      else Js.URLSearchParams.set "page" (Js.Number_toString page) params
  end.

(** The updaters of [toggleDueFilter] and [toggleStatusFilter]. *)
Definition toggleDueFilter (value : DueFilter) (prev : list DueFilter) : list DueFilter :=
  if bool_decide (value ∈ prev) then filter (λ item, item ≠ value) prev
  else prev ++ [value].

Definition toggleStatusFilter (value : StatusFilter) (prev : list StatusFilter)
    : list StatusFilter :=
  if bool_decide (value = archived) then
    if bool_decide (archived ∈ prev) then filter (λ item, item ≠ archived) prev
    else [archived]
  else
    let next := filter (λ item, item ≠ archived) prev in
    if bool_decide (value ∈ next) then filter (λ item, item ≠ value) next
    else next ++ [value].

(** *** State, environment and effects

    The React state of [RequirementsClient] that the handlers write. *)
Record State := {
  requirementRows : list Requirement;
  selectedIds : list string;
  completingId : option string;
  pendingDueFilters : list DueFilter;
  pendingStatusFilters : list StatusFilter;
  filtersOpen : bool;
}.

(** A JSON value of the [anchor_value] object. *)
Inductive JsValue := Num (x : float) | Str (s : string).

(** The body of [POST /requirements/triage/bulk], as [TriagePanel] builds
    it. *)
Record TriagePayload := {
  requirement_ids : list string;
  payload_frequency : option string;
  payload_anchor_type : option string;
  payload_anchor_value : option (gmap string JsValue);
  payload_due_date : option string;
  payload_assignee : option string;
  payload_status : option string;
}.

(** A text shown or sent: a translation key given to [t], or a literal
    string. *)
Inductive Message := Translated (key : string) | Literal (text : string).

Inductive Body :=
  | CompleteBody (completed_by : option string)
  | ArchiveBody (reason : Message)
  | TriageBody (payload : TriagePayload).

Inductive ToastLevel := error | success | info.

(** What a handler does to the outside, in order. *)
Inductive Effect :=
  | Toast (level : ToastLevel) (message : Message)
  | Post (path : string) (body : Body)
  | Revalidate
  | RouterReplace (params : Js.URLSearchParams.t)
  | RouterPush (path : string)
  | ConsoleError.

(** How an awaited promise settles. *)
Inductive Failure := ApiError (http_status : Z) (message : string) | OtherFailure.
Inductive Settled (A : Type) := Fulfilled (value : A) | Failed (failure : Failure).
Arguments Fulfilled {A} value.
Arguments Failed {A} failure.

(** [error instanceof ApiError ? error.message : t(fallback)]. *)
Definition failure_message (failure : Failure) (fallback : string) : Message :=
  match failure with
  | ApiError _ message => Literal message
  | OtherFailure => Translated fallback
  end.

(** A network call among the effects. *)
Definition is_network (effect : Effect) : bool :=
  match effect with
  | Post _ _ | Revalidate => true
  | _ => false
  end.

(** The effect on [requirementRows] (lines 501-503): the selection keeps
    the ids that have a row in triage. *)
Definition purgeSelection (rows : list Requirement) (prev : list string) : list string :=
  filter (λ key, Exists (λ item, id item = key ∧ status item = Some "PENDING_REVIEW") rows)
    prev.

Definition setSelectedIds (ids : list string) (st : State) : State :=
  {| requirementRows := requirementRows st; selectedIds := ids;
     completingId := completingId st;
     pendingDueFilters := pendingDueFilters st;
     pendingStatusFilters := pendingStatusFilters st;
     filtersOpen := filtersOpen st |}.

(** [setRequirementRows(rows)] with the effect that every change of the
    rows triggers. *)
Definition setRequirementRows (rows : list Requirement) (st : State) : State :=
  {| requirementRows := rows;
     selectedIds := purgeSelection rows (selectedIds st);
     completingId := completingId st;
     pendingDueFilters := pendingDueFilters st;
     pendingStatusFilters := pendingStatusFilters st;
     filtersOpen := filtersOpen st |}.

Definition setCompletingId (value : option string) (st : State) : State :=
  {| requirementRows := requirementRows st; selectedIds := selectedIds st;
     completingId := value;
     pendingDueFilters := pendingDueFilters st;
     pendingStatusFilters := pendingStatusFilters st;
     filtersOpen := filtersOpen st |}.

Definition setPendingFilters (due : list DueFilter) (statuses : list StatusFilter)
    (open : bool) (st : State) : State :=
  {| requirementRows := requirementRows st; selectedIds := selectedIds st;
     completingId := completingId st;
     pendingDueFilters := due; pendingStatusFilters := statuses;
     filtersOpen := open |}.

(** [prev.map((row) => (row.id === updated.id ? updated : row))]. *)
Definition upsert (updated : Requirement) (rows : list Requirement) : list Requirement :=
  (λ row, if bool_decide (id row = id updated) then updated else row) <$> rows.

(** [refreshAndHydrate], given the items of the revalidated response
    ([None] when the response or its items are missing). *)
Definition refreshAndHydrate (latest : option (list Requirement)) (st : State) : State :=
  match latest with
  | Some items => setRequirementRows items st
  | None => st
  end.

(** [updateQuery]: the mirror and the selection are emptied and the
    router replaces the URL. *)
Definition updateQuery (searchParams : option Js.URLSearchParams.t) (next : QueryPatch)
    (st : State) : State * list Effect :=
  (setSelectedIds [] (setRequirementRows [] st),
   [RouterReplace (updateQueryParams searchParams next)]).

Definition applyFilters (searchParams : option Js.URLSearchParams.t) (st : State)
    : State * list Effect :=
  let normalizedStatus := pendingStatusFilters st in
  let '(st', effects) :=
    updateQuery searchParams
      {| patch_dueFilters := Some (pendingDueFilters st);
         patch_statusFilters := Some normalizedStatus; patch_page := Some 1 |} st in
  (setPendingFilters (pendingDueFilters st') normalizedStatus false st', effects).

Definition clearFilters (searchParams : option Js.URLSearchParams.t) (st : State)
    : State * list Effect :=
  let '(st', effects) :=
    updateQuery searchParams
      {| patch_dueFilters := Some []; patch_statusFilters := Some [];
         patch_page := Some 1 |} st in
  (setPendingFilters [] [] false st', effects).

Definition handleView (requirement : Requirement) : list Effect :=
  [RouterPush ("/requirements/" +:+ id requirement)].

Definition handleComplete (email : option string) (requirement : Requirement)
    (response : Settled Requirement) (latest : Settled (option (list Requirement)))
    (st : State) : State * list Effect :=
  if Js.strict_eq (status requirement) "DONE"
     || Js.strict_eq (status requirement) "PENDING_REVIEW"
  then (st, [])
  else
    let st := setCompletingId (Some (id requirement)) st in
    let request :=
      Post ("/requirements/" +:+ id requirement +:+ "/complete") (CompleteBody email) in
    match response with
    | Failed failure =>
        (setCompletingId None st,
         [request; Toast error (failure_message failure "requirements.completeError")])
    | Fulfilled updated =>
        let st := setRequirementRows (upsert updated (requirementRows st)) st in
        let done := [request; Toast success (Translated "requirements.completeSuccess");
                     Revalidate] in
        match latest with
        | Fulfilled latest => (setCompletingId None (refreshAndHydrate latest st), done)
        | Failed failure =>
            (setCompletingId None st,
             done ++ [Toast error (failure_message failure "requirements.completeError")])
        end
    end.

Definition handleRemind (requirement : Requirement) : list Effect :=
  [Toast info (Translated "requirements.renewReminder")].

Definition toggleSelection (requirement : Requirement) (checked : bool) (st : State)
    : State :=
  if negb (Js.strict_eq (status requirement) "PENDING_REVIEW") then st
  else
    let prev := selectedIds st in
    setSelectedIds
      (if checked then
         if bool_decide (id requirement ∈ prev) then prev
         else prev ++ [id requirement]
       else filter (λ key, key ≠ id requirement) prev)
      st.

(** The ids of the rows in triage on the loaded page. *)
Definition triageIdsOnPage (rows : list Requirement) : list string :=
  id <$> filter (λ item, status item = Some "PENDING_REVIEW") rows.

Definition toggleSelectAll (checked : bool) (st : State) : State :=
  let prev := selectedIds st in
  let ids := triageIdsOnPage (requirementRows st) in
  setSelectedIds
    (if bool_decide (ids = []) then prev
     else if checked then foldl (λ acc key, Js.Set_add key acc) (foldl (λ acc key, Js.Set_add key acc) [] prev) ids
     else filter (λ key, key ∉ ids) prev)
    st.

(** [dismissRequirementsList]; [confirmed] and [input] are the answers of
    the confirmation and of the prompt, [batch] is how [Promise.all] over
    the archive calls settles. *)
Definition dismissRequirementsList (requirementsToDismiss : list Requirement)
    (confirm : bool) (providedReason : option Message)
    (confirmed : bool) (input : option string)
    (batch : Settled unit) (latest : Settled (option (list Requirement)))
    (st : State) : State * list Effect :=
  if bool_decide (requirementsToDismiss = []) then (st, [])
  else
    let archiveReason := default (Translated "triage.dismissReason") providedReason in
    let decided : Message + list Effect :=
      if confirm then
        if negb confirmed then inr []
        else
          match input with
          | None => inr []
          | Some input =>
              let trimmed := Js.trim input in
              if bool_decide (trimmed = "") then
                inr [Toast error (Translated "requirements.detail.archiveReasonRequired")]
              else inl (Literal trimmed)
          end
      else inl archiveReason in
    match decided with
    | inr effects => (st, effects)
    | inl archiveReason =>
        let requests :=
          (λ requirement,
             Post ("/requirements/" +:+ id requirement +:+ "/archive")
               (ArchiveBody archiveReason)) <$> requirementsToDismiss in
        match batch with
        | Failed failure => (st, requests ++ [Toast error (failure_message failure "triage.error")])
        | Fulfilled _ =>
            let toast :=
              Toast success
                (Translated (if bool_decide (length requirementsToDismiss = 1%nat)
                             then "triage.dismissed" else "triage.dismissedMany")) in
            let st :=
              setSelectedIds
                (filter (λ key, ¬ Exists (λ req, id req = key) requirementsToDismiss)
                   (selectedIds st)) st in
            match latest with
            | Fulfilled latest =>
                (refreshAndHydrate latest st, requests ++ [toast; Revalidate])
            | Failed failure =>
                (st, requests ++ [toast; Revalidate;
                                  Toast error (failure_message failure "triage.error")])
            end
        end
    end.

(** [archiveRequirement]; [reasonInput] is the answer of the prompt. *)
Definition archiveRequirement (requirement : Requirement) (reasonInput : option string)
    (response : Settled Requirement) (latest : Settled (option (list Requirement)))
    (st : State) : State * list Effect :=
  if Js.strict_eq (archive_state requirement) "archived"
     || Js.strict_eq (status requirement) "ARCHIVED"
  then (st, [])
  else
    match reasonInput with
    | None => (st, [])
    | Some reasonInput =>
        let reason := Js.trim reasonInput in
        if bool_decide (reason = "") then
          (st, [Toast error (Translated "requirements.detail.archiveReasonRequired")])
        else
          let request :=
            Post ("/requirements/" +:+ id requirement +:+ "/archive")
              (ArchiveBody (Literal reason)) in
          match response with
          | Failed failure =>
              (st, [request;
                    Toast error (failure_message failure "requirements.detail.archiveError")])
          | Fulfilled updated =>
              let st := setRequirementRows (upsert updated (requirementRows st)) st in
              let st :=
                setSelectedIds (filter (λ key, key ≠ id requirement) (selectedIds st)) st in
              let done := [request; Toast success (Translated "requirements.detail.archived");
                           Revalidate] in
              match latest with
              | Fulfilled latest => (refreshAndHydrate latest st, done)
              | Failed failure =>
                  (st, done ++ [Toast error
                                  (failure_message failure "requirements.detail.archiveError")])
              end
          end
    end.

Definition selectedRequirements (st : State) : list Requirement :=
  filter (λ item, id item ∈ selectedIds st) (requirementRows st).

Definition handleTriageSubmit (payload : TriagePayload) (response : Settled unit)
    (latest : Settled (option (list Requirement))) (st : State) : State * list Effect :=
  let request := Post "/requirements/triage/bulk" (TriageBody payload) in
  match response with
  | Failed _ => (st, [request; ConsoleError; Toast error (Translated "triage.error")])
  | Fulfilled _ =>
      let st := setSelectedIds [] st in
      let done := [request; Toast success (Translated "triage.success"); Revalidate] in
      match latest with
      | Fulfilled latest => (refreshAndHydrate latest st, done)
      | Failed _ => (st, done ++ [ConsoleError; Toast error (Translated "triage.error")])
      end
  end.

Definition showSelectionColumn (selectedStatusFilters : list StatusFilter)
    (rows : list Requirement) : bool :=
  bool_decide (triage ∈ selectedStatusFilters)
  || bool_decide (Exists (λ item, status item = Some "PENDING_REVIEW") rows).

Record SelectAllState := {
  hasSelectable : bool;
  allSelected : bool;
  someSelected : bool;
}.

Definition selectAllState (st : State) : SelectAllState :=
  let idsOnPage := triageIdsOnPage (requirementRows st) in
  if bool_decide (idsOnPage = []) then
    {| hasSelectable := false; allSelected := false; someSelected := false |}
  else
    {| hasSelectable := true;
       allSelected := bool_decide (Forall (λ key, key ∈ selectedIds st) idsOnPage);
       someSelected := bool_decide (Exists (λ key, key ∈ selectedIds st) idsOnPage) |}.

(** The header checkbox of the selection column. *)
Definition headerChecked (s : SelectAllState) : bool := hasSelectable s && allSelected s.
Definition headerIndeterminate (s : SelectAllState) : bool :=
  hasSelectable s && negb (allSelected s) && someSelected s.
Definition headerDisabled (s : SelectAllState) : bool := negb (hasSelectable s).

(** The effect on [showSelectionColumn] (lines 833-837). *)
Definition clearHiddenSelection (selectedStatusFilters : list StatusFilter) (st : State)
    : State :=
  if negb (showSelectionColumn selectedStatusFilters (requirementRows st))
     && bool_decide (selectedIds st ≠ [])
  then setSelectedIds [] st
  else st.

(** [{ ...record, due_date }] and [{ ...record, archive_state }]. *)
Definition with_due_date (value : option string) (record : Requirement) : Requirement :=
  {| id := id record; document_name := document_name record;
     title_en := title_en record; title_es := title_es record;
     description_en := description_en record;
     description_es := description_es record;
     category := category record; frequency := frequency record;
     due_date := value; status := status record;
     source_ref := source_ref record; archive_state := archive_state record |}.

Definition with_archive_state (value : option string) (record : Requirement) : Requirement :=
  {| id := id record; document_name := document_name record;
     title_en := title_en record; title_es := title_es record;
     description_en := description_en record;
     description_es := description_es record;
     category := category record; frequency := frequency record;
     due_date := due_date record; status := status record;
     source_ref := source_ref record; archive_state := value |}.

Section WithHost.
Context `{Js.Host}.

Definition deriveUiStatus (now : Z) (record : Requirement) : UiStatus :=
  if Js.strict_eq (archive_state record) "archived"
     || Js.strict_eq (archive_state record) "deleted"
  then ARCHIVED
  else if Js.strict_eq (status record) "ARCHIVED" then ARCHIVED
  else
    let status := Js.nullish (status record) "OPEN" in
    let daysRemaining := daysUntil now (due_date record) in
    if bool_decide (status = "PENDING_REVIEW") then
      if number_below daysRemaining 0 then OVERDUE else NEEDS_TRIAGE
    else if bool_decide (status = "DONE") || bool_decide (status = "READY") then
      if number_below daysRemaining 0 then OVERDUE else COMPLETED
    else if bool_decide (status = "REVIEW") then
      if number_below daysRemaining 0 then OVERDUE else NEEDS_REVIEW
    else if number_below daysRemaining 0 then OVERDUE
    else OPEN.

(** [selected.add(bucket)] on the [Set] of [parseStatusFilters]. *)
Definition selected_add (bucket : StatusFilter) (selected : list StatusFilter)
    : list StatusFilter :=
  if bool_decide (bucket ∈ selected) then selected else selected ++ [bucket].

Definition parseStatusFilters (params : option Js.URLSearchParams.t) : list StatusFilter :=
  let selected :=
    if Js.strict_eq (params ≫= Js.URLSearchParams.get "archived") "true"
    then selected_add archived [] else [] in
  let rawStatus := params ≫= Js.URLSearchParams.get "status" in
  if Js.falsy rawStatus then selected
  else
    let tokens :=
      (λ token, Js.toUpperCase (Js.trim token)) <$> Js.split "," (Js.nullish rawStatus "") in
    let some (wanted : list string) : bool :=
      bool_decide (Exists (λ token, token ∈ wanted) tokens) in
    let selected :=
      if some ["DONE"; "READY"] then selected_add completed selected else selected in
    let selected :=
      if some ["OPEN"; "REVIEW"] then selected_add active selected else selected in
    if some ["PENDING_REVIEW"] then selected_add triage selected else selected.

(** *** The cells of [buildColumns] *)

Inductive BadgeVariant :=
  | variant_default | variant_success | variant_warning | variant_danger
  | variant_muted.

(** [UI_STATUS_META]: the label key and the badge of a status. *)
Definition UI_STATUS_META (status : UiStatus) : string * BadgeVariant :=
  match status with
  | OPEN => ("statuses.open", variant_warning)
  | NEEDS_REVIEW => ("statuses.needsReview", variant_muted)
  | NEEDS_TRIAGE => ("statuses.needsTriage", variant_warning)
  | COMPLETED => ("statuses.completed", variant_success)
  | ARCHIVED => ("statuses.archived", variant_muted)
  | OVERDUE => ("statuses.overdue", variant_danger)
  end.

(** What a cell renders: a badge, a plain text, or nothing. *)
Inductive Cell :=
  | Badge (variant : BadgeVariant) (label : Message)
  | Text (label : Message)
  | Empty.

(** The status column (lines 262-284). *)
Definition statusCell (now : Z) (record : Requirement) : Cell :=
  if Js.strict_eq (archive_state record) "pending"
  then Badge variant_warning (Translated "requirements.detail.pendingApproval")
  else if Js.strict_eq (archive_state record) "archived"
  then Badge variant_muted (Translated "requirements.detail.archivedBadge")
  else if Js.strict_eq (archive_state record) "deleted"
  then Badge variant_danger (Translated "requirements.detail.deletedBadge")
  else
    let meta := UI_STATUS_META (deriveUiStatus now record) in
    Badge meta.2 (Translated meta.1).

(** The alerts column (lines 285-309). *)
Definition alertsCell (now : Z) (record : Requirement) : Cell :=
  let daysRemaining := daysUntil now (due_date record) in
  if Js.strict_eq (status record) "DONE" then Text (Translated "statuses.done")
  else
    match daysRemaining with
    | None => Text (Literal em_dash)
    | Some daysRemaining =>
        if daysRemaining <? 0 then Badge variant_danger (Translated "statuses.overdue")
        else if daysRemaining =? 0
        then Badge variant_warning (Translated "statuses.dueToday")
        else if (0 <? daysRemaining) && (daysRemaining <=? 7)
        then Badge variant_warning (Translated "statuses.expiringSoon")
        else Text (Translated "alerts.clear")
    end.

End WithHost.

(** The selection column (lines 175-190): a checkbox for a row in triage,
    checked when the row is selected. *)
Definition selectCell (selectedIds : list string) (requirement : Requirement)
    : option bool :=
  if negb (Js.strict_eq (status requirement) "PENDING_REVIEW") then None
  else Some (bool_decide (id requirement ∈ selectedIds)).

(** The document column. *)
Definition documentCell (record : Requirement) : string :=
  Js.nullish (document_name record) em_dash.

(** The actions column (lines 313-367). *)
Definition hasRetentionHold (record : Requirement) : bool :=
  Js.strict_eq (archive_state record) "archived"
  || Js.strict_eq (status record) "ARCHIVED".

Definition completeDisabled (completingId : option string) (record : Requirement) : bool :=
  bool_decide (completingId = Some (id record))
  || Js.strict_eq (status record) "DONE"
  || hasRetentionHold record
  || Js.strict_eq (status record) "PENDING_REVIEW".

(** Which handler the trash button of a row calls, if the row has one. *)
Inductive TrashButton := DismissButton | ArchiveButton.

Definition trashButton (record : Requirement) : option TrashButton :=
  if Js.strict_eq (status record) "PENDING_REVIEW" then Some DismissButton
  else if negb (hasRetentionHold record) then Some ArchiveButton
  else None.

End RequirementsClient.

(** ** [src/app/requirements/triage-panel.tsx] *)

Module TriagePanel.
Import RequirementsClient.

Record FormState := {
  form_frequency : option string;
  form_anchorType : option string;
  form_anchorDate : option string;
  form_dueDate : option string;
  form_assignee : option string;
  form_interval : option string;
  form_status : option string;
}.

(** [useState<FormState>({ status: "OPEN" })]. *)
Definition initialForm : FormState :=
  {| form_frequency := None; form_anchorType := None; form_anchorDate := None;
     form_dueDate := None; form_assignee := None; form_interval := None;
     form_status := Some "OPEN" |}.

Definition FREQUENCIES : list string :=
  ["BEFORE_EACH_USE"; "DAILY"; "WEEKLY"; "MONTHLY"; "QUARTERLY"; "ANNUAL";
   "EVERY_N_DAYS"; "EVERY_N_WEEKS"; "EVERY_N_MONTHS"; "ONE_TIME"].

Definition ANCHORS : list string :=
  ["UPLOAD_DATE"; "ISSUE_DATE"; "CALENDAR"; "FIRST_COMPLETION"; "CUSTOM_DATE"].

(** What [handleSubmit] does before it calls [onSubmit]: it stops with an
    error toast, it throws the [RangeError] of [toISOString] on an invalid
    date, or it has a payload. *)
Inductive Submission :=
  | Invalid (key : string)
  | RangeError
  | Ready (payload : TriagePayload).

Section WithHost.
Context `{Js.Host}.

(** [needsInterval] of the render. *)
Definition needsInterval (form : FormState) : bool :=
  Js.startsWith "EVERY_N_" (Js.nullish (form_frequency form) "").

(** [new Date(value).toISOString()]; [None] is the [RangeError]. *)
Definition isoOf (value : string) : option string :=
  Js.toISOString <$> Js.Date_parse value.

(** A field when it is truthy. *)
Definition truthy (value : option string) : option string :=
  if Js.falsy value then None else value.

(** [requiresInterval] and [intervalValue] of [handleSubmit]. *)
Definition requiresInterval (frequency : string) : bool :=
  Js.startsWith "EVERY_N_" frequency.

Definition intervalValue (form : FormState) : option float :=
  Js.Number_of <$> truthy (form_interval form).

(** The checks at the head of [handleSubmit] (lines 83-102): the key of
    the error toast of the first check that fails. *)
Definition validation (form : FormState) : option string :=
  if Js.falsy (form_status form) then Some "triage.statusRequired"
  else if Js.falsy (form_frequency form) then Some "triage.frequencyRequired"
  else
    let frequency := Js.nullish (form_frequency form) "" in
    let needsDueDate :=
      negb (bool_decide (frequency ∈ ["BEFORE_EACH_USE"; "ONE_TIME"])) in
    if needsDueDate && Js.falsy (form_dueDate form) then Some "triage.dueRequired"
    else
      let intervalMissing :=
        match intervalValue form with
        | None => true
        | Some x => Js.falsy_number x || PrimFloat.is_nan x || PrimFloat.leb x 0
        end in
      if requiresInterval frequency && intervalMissing
      then Some "triage.intervalRequired"
      else None.

(** [payload.anchor_value] after lines 120-128: the reference date when
    an anchor type and a date are given, an empty object when only the
    type is; the outer [None] is the [RangeError]. *)
Definition anchorOfForm (form : FormState) : option (option (gmap string JsValue)) :=
  match truthy (form_anchorType form) with
  | Some _ =>
      match truthy (form_anchorDate form) with
      | Some anchorDate =>
          match isoOf anchorDate with
          | Some date => Some (Some {[ "date" := Str date ]})
          | None => None
          end
      | None => Some (Some ∅)
      end
  | None => Some None
  end.

(** Lines 129-140: the interval and its unit are added for an every-N
    frequency with a truthy interval. *)
Definition anchorWithInterval (frequency : string) (interval : option float)
    (anchor_value : option (gmap string JsValue)) : option (gmap string JsValue) :=
  match interval with
  | Some x =>
      if requiresInterval frequency && negb (Js.falsy_number x) then
        let anchorValue := <["interval" := Num x]> (default ∅ anchor_value) in
        Some
          (if bool_decide (frequency = "EVERY_N_DAYS")
           then <["days" := Num x]> anchorValue
           else if bool_decide (frequency = "EVERY_N_WEEKS")
           then <["weeks" := Num x]> anchorValue
           else if bool_decide (frequency = "EVERY_N_MONTHS")
           then <["months" := Num x]> anchorValue
           else anchorValue)
      else anchor_value
  | None => anchor_value
  end.

(** [payload.due_date] (lines 141-143); the outer [None] is the
    [RangeError]. *)
Definition dueOfForm (form : FormState) : option (option string) :=
  match truthy (form_dueDate form) with
  | Some dueDate =>
      match isoOf dueDate with
      | Some date => Some (Some date)
      | None => None
      end
  | None => Some None
  end.

Definition handleSubmit (selected : list Requirement) (form : FormState) : Submission :=
  match validation form with
  | Some key => Invalid key
  | None =>
      let frequency := Js.nullish (form_frequency form) "" in
      match anchorOfForm form with
      | None => RangeError
      | Some anchor_value =>
          match dueOfForm form with
          | None => RangeError
          | Some due_date =>
              Ready
                {| requirement_ids := id <$> selected;
                   payload_frequency := Some frequency;
                   payload_anchor_type := truthy (form_anchorType form);
                   payload_anchor_value :=
                     anchorWithInterval frequency (intervalValue form) anchor_value;
                   payload_due_date := due_date;
                   payload_assignee := truthy (form_assignee form);
                   payload_status := truthy (form_status form) |}
          end
      end
  end.

(** The form after [handleSubmit]: reset once [onSubmit] has returned. *)
Definition formAfterSubmit (selected : list Requirement) (form : FormState) : FormState :=
  match handleSubmit selected form with
  | Ready _ => initialForm
  | _ => form
  end.

(** The panel's submit wired to the controller's [handleTriageSubmit]. *)
Definition submit (selected : list Requirement) (form : FormState)
    (response : Settled unit) (latest : Settled (option (list Requirement)))
    (st : State) : State * list Effect :=
  match handleSubmit selected form with
  | Invalid key => (st, [Toast error (Translated key)])
  | RangeError => (st, [])
  | Ready payload => handleTriageSubmit payload response latest st
  end.

End WithHost.

(** [handleDismissClick], for the [onDismiss] the controller passes
    ([confirm: false] with the reason collected here). *)
Definition handleDismissClick (selected : list Requirement)
    (confirmed : bool) (reasonInput : option string)
    (batch : Settled unit) (latest : Settled (option (list Requirement)))
    (st : State) : State * list Effect :=
  if negb confirmed then (st, [])
  else
    match reasonInput with
    | None => (st, [])
    | Some reasonInput =>
        let archiveReason := Js.trim reasonInput in
        if bool_decide (archiveReason = "") then
          (st, [Toast error (Translated "requirements.detail.archiveReasonRequired")])
        else
          dismissRequirementsList selected false (Some (Literal archiveReason))
            true None batch latest st
    end.

End TriagePanel.

(** ** The controller as a transition system

    The changes of the state of [RequirementsClient]: one step per
    handler or effect, for any answer of the environment. A row handed
    to a handler by a cell of the table is a row of the mirror. *)

Module Controller.
Import RequirementsClient.

(** [useState]: the rows of the server-rendered page, nothing selected. *)
Definition initial (initialRequirements : option RequirementsResponse)
    (due : list DueFilter) (statuses : list StatusFilter) : State :=
  {| requirementRows := default [] (items <$> initialRequirements);
     selectedIds := []; completingId := None;
     pendingDueFilters := due; pendingStatusFilters := statuses;
     filtersOpen := false |}.

Inductive step : State -> State -> Prop :=
  | step_hydrate st rows :
      step st (setRequirementRows rows st)
  | step_updateQuery st searchParams next :
      step st (updateQuery searchParams next st).1
  | step_applyFilters st searchParams :
      step st (applyFilters searchParams st).1
  | step_clearFilters st searchParams :
      step st (clearFilters searchParams st).1
  | step_pending st due statuses open :
      step st (setPendingFilters due statuses open st)
  | step_complete st email requirement response latest :
      requirement ∈ requirementRows st ->
      step st (handleComplete email requirement response latest st).1
  | step_toggleSelection st requirement checked :
      requirement ∈ requirementRows st ->
      step st (toggleSelection requirement checked st)
  | step_toggleSelectAll st checked :
      step st (toggleSelectAll checked st)
  | step_dismiss st requirements confirm reason confirmed input batch latest :
      step st
        (dismissRequirementsList requirements confirm reason confirmed input
           batch latest st).1
  | step_archive st requirement reasonInput response latest :
      requirement ∈ requirementRows st ->
      step st (archiveRequirement requirement reasonInput response latest st).1
  | step_triage st payload response latest :
      step st (handleTriageSubmit payload response latest st).1
  | step_cancel st :
      step st (setSelectedIds [] st)
  | step_clearHidden st statuses :
      step st (clearHiddenSelection statuses st).

End Controller.

(** ** [mockApiFetch], the server of the repository

    The branch for [GET /requirements]. [requirements] is the data set of
    the mock and [search] the parameters of the request, which carry the
    page and the limit as Numbers; the [status] and [archived] parameters
    are not read. *)

Module Mock.
Import Dates RequirementsClient.

Section WithHost.
Context `{Js.Host}.



End WithHost.
End Mock.

(** ** Sample data *)

Module Samples.
Import RequirementsClient.

(** 2026-11-02T12:00:00Z. *)
Definition noon : Z := 1793620800000.

Definition requirement (key : string) (state : option string)
    (due archive : option string) : Requirement :=
  {| id := key; document_name := Some "safety-manual.pdf";
     title_en := "Arc flash PPE review"; title_es := "Revisión de EPP";
     description_en := "Inspect PPE"; description_es := "Inspeccionar EPP";
     category := Some "Safety"; frequency := Some "ANNUAL";
     due_date := due; status := state;
     source_ref := None; archive_state := archive |}.

(** A page of three rows, two of them in triage, with the first
    selected. *)
Definition page_state : State :=
  {| requirementRows :=
       [requirement "r1" (Some "PENDING_REVIEW") (Some "2026-11-01") None;
        requirement "r2" (Some "OPEN") (Some "2026-12-01") None;
        requirement "r3" (Some "PENDING_REVIEW") None None];
     selectedIds := ["r1"]; completingId := None;
     pendingDueFilters := []; pendingStatusFilters := [];
     filtersOpen := false |}.

(** The filter panel with two due filters and archived ticked. *)
Definition panel_state : State :=
  {| requirementRows := requirementRows page_state; selectedIds := ["r1"];
     completingId := None; pendingDueFilters := [due30; overdue];
     pendingStatusFilters := [archived]; filtersOpen := true |}.


(** A form for a check every two weeks. *)
Definition fortnightly (interval : option string) : TriagePanel.FormState :=
  {| TriagePanel.form_frequency := Some "EVERY_N_WEEKS"; TriagePanel.form_anchorType := Some "CUSTOM_DATE";
     TriagePanel.form_anchorDate := Some "2026-11-15"; TriagePanel.form_dueDate := Some "2026-12-01";
     TriagePanel.form_assignee := None; TriagePanel.form_interval := interval;
     TriagePanel.form_status := Some "OPEN" |}.

End Samples.

(** * Properties *)

Module JsFacts.
Import Js.

Lemma era_bounds (doe : Z) :
  0 <= doe < 146097 ->
  let yoe := (doe - doe / 1460 + doe / 36524 - doe / 146096) / 365 in
  let doy := doe - (365 * yoe + yoe / 4 - yoe / 100) in
  0 <= yoe <= 399 /\ 0 <= doy <= 365.
Proof.
  intros Hdoe yoe doy. subst doy yoe.
  Z.div_mod_to_equations. lia.
Qed.

(** The calendar functions invert each other: the day number of the
    year, month and day of a day number is that day number. *)
Lemma days_from_civil_from_days_ok (day : Z) :
  let '(y, m, d) := civil_from_days day in
  days_from_civil y m d = day /\ 1 <= m <= 12 /\ 1 <= d <= 31.
Proof.
  unfold civil_from_days.
  set (z := day + 719468).
  set (era := z / 146097).
  set (doe := z - era * 146097).
  assert (Hdoe : 0 <= doe < 146097).
  { subst doe era. Z.div_mod_to_equations. lia. }
  pose proof (era_bounds doe Hdoe) as Hb. cbv zeta in Hb.
  set (yoe := (doe - doe / 1460 + doe / 36524 - doe / 146096) / 365) in *.
  set (doy := doe - (365 * yoe + yoe / 4 - yoe / 100)) in *.
  destruct Hb as [Hyoe Hdoy].
  set (mp := (5 * doy + 2) / 153).
  assert (Hmp : 0 <= mp <= 11).
  { subst mp. Z.div_mod_to_equations. lia. }
  assert (Hd : 1 <= doy - (153 * mp + 2) / 5 + 1 <= 31).
  { subst mp. Z.div_mod_to_equations. lia. }
  unfold days_from_civil.
  destruct (Z.ltb_spec mp 10) as [Hlt | Hge].
  - replace (mp + 3 <=? 2) with false by (symmetry; apply Z.leb_gt; lia).
    replace (2 <? mp + 3) with true by (symmetry; apply Z.ltb_lt; lia).
    replace (mp + 3 - 3) with mp by lia.
    replace ((yoe + era * 400) / 400) with era
      by (Z.div_mod_to_equations; lia).
    replace (yoe + era * 400 - era * 400) with yoe by lia.
    split; [| lia].
    subst doy doe z. lia.
  - replace (mp - 9 <=? 2) with true by (symmetry; apply Z.leb_le; lia).
    replace (2 <? mp - 9) with false by (symmetry; apply Z.ltb_ge; lia).
    replace (mp - 9 + 9) with mp by lia.
    replace (yoe + era * 400 + 1 - 1) with (yoe + era * 400) by lia.
    replace ((yoe + era * 400) / 400) with era
      by (Z.div_mod_to_equations; lia).
    replace (yoe + era * 400 - era * 400) with yoe by lia.
    split; [| lia].
    subst doy doe z. lia.
Qed.

End JsFacts.

Module DateFacts.
Import Js JsFacts.

(** A time value whose UTC year [Date.UTC] reads as written, that is, not
    as a two-digit abbreviation of 19xx. *)
Definition plain_year (t : Z) : Prop := ¬ (0 <= getUTCFullYear t <= 99).

Lemma MakeDay_of_civil (y m d : Z) :
  1 <= m <= 12 -> MakeDay y (m - 1) d = days_from_civil y m d.
Proof.
  intros Hm. unfold MakeDay.
  replace ((m - 1) / 12) with 0 by (Z.div_mod_to_equations; lia).
  replace ((m - 1) mod 12 + 1) with m by (Z.div_mod_to_equations; lia).
  replace (y + 0) with y by lia.
  unfold days_from_civil. lia.
Qed.

(** Rebuilding a date from its UTC year, month and day gives the midnight
    that starts its day. *)
Lemma Date_UTC_midnight (t : Z) :
  plain_year t ->
  Date_UTC (getUTCFullYear t) (getUTCMonth t) (getUTCDate t) = Day t * msPerDay.
Proof.
  unfold plain_year, Date_UTC, getUTCFullYear, getUTCMonth, getUTCDate.
  pose proof (days_from_civil_from_days_ok (Day t)) as Hrt.
  destruct (civil_from_days (Day t)) as [[y m] d]. simpl.
  destruct Hrt as (Hrt & Hm & _). intros Hy.
  replace ((0 <=? y) && (y <=? 99)) with false.
  - rewrite MakeDay_of_civil by done. by rewrite Hrt.
  - symmetry. apply andb_false_iff.
    destruct (Z.leb_spec 0 y); [right; apply Z.leb_gt; lia | by left].
Qed.

Lemma days_from_civil_before_1969 (y m d : Z) :
  y <= 1968 -> 1 <= m <= 12 -> 1 <= d <= 31 -> days_from_civil y m d < -1.
Proof.
  intros Hy Hm Hd. unfold days_from_civil.
  destruct (Z.leb_spec m 2), (Z.ltb_spec 2 m); try lia;
    Z.div_mod_to_equations; lia.
Qed.

(** From the last day of 1969 on, the year has four digits. *)
Lemma plain_year_since_1969 (t : Z) : -1 <= Day t -> plain_year t.
Proof.
  unfold plain_year, getUTCFullYear. intros Hday Hy.
  pose proof (days_from_civil_from_days_ok (Day t)) as Hrt.
  destruct (civil_from_days (Day t)) as [[y m] d]. simpl in Hy.
  destruct Hrt as (Hrt & Hm & Hd).
  pose proof (days_from_civil_before_1969 y m d). lia.
Qed.

Lemma Day_nonneg (t : Z) : 0 <= t -> 0 <= Day t.
Proof. intros Ht. unfold Day, msPerDay. Z.div_mod_to_equations. lia. Qed.

Lemma round_div_days (k : Z) : round_div (k * msPerDay) (1000 * 60 * 60 * 24) = k.
Proof. unfold round_div, msPerDay. Z.div_mod_to_equations. lia. Qed.

End DateFacts.

Module DatesFacts.
Import Js Dates DateFacts.

Section WithHost.
Context `{Js.Host}.

(** Between two dates whose years are read as written, [daysUntil] is the
    difference of the UTC day numbers. *)
Lemma daysUntil_day_difference (now target : Z) (s : string) :
  s ≠ "" -> Date_parse s = Some target ->
  plain_year target -> plain_year now ->
  daysUntil now (Some s) = Some (Day target - Day now).
Proof.
  intros Hs Hparse Ht Hn. unfold daysUntil.
  rewrite bool_decide_eq_false_2 by done. rewrite Hparse.
  rewrite !Date_UTC_midnight by done.
  replace (Day target * msPerDay - Day now * msPerDay)
    with ((Day target - Day now) * msPerDay) by lia.
  by rewrite round_div_days.
Qed.

(** [daysUntil] reads its two dates through their UTC day only. *)
Lemma daysUntil_by_day (now now' target target' : Z) (s s' : string) :
  s ≠ "" -> s' ≠ "" ->
  Date_parse s = Some target -> Date_parse s' = Some target' ->
  Day target' = Day target -> Day now' = Day now ->
  daysUntil now' (Some s') = daysUntil now (Some s).
Proof.
  intros Hs Hs' Hp Hp' Ht Hn. unfold daysUntil.
  rewrite !bool_decide_eq_false_2 by done. rewrite Hp, Hp'.
  unfold getUTCFullYear, getUTCMonth, getUTCDate. by rewrite Ht, Hn.
Qed.

Lemma daysUntil_same_day (now target : Z) (s : string) :
  s ≠ "" -> Date_parse s = Some target -> Day target = Day now ->
  daysUntil now (Some s) = Some 0.
Proof.
  intros Hs Hparse Hday. unfold daysUntil.
  rewrite bool_decide_eq_false_2 by done. rewrite Hparse.
  unfold getUTCFullYear, getUTCMonth, getUTCDate. rewrite Hday.
  by rewrite Z.sub_diag.
Qed.

Lemma daysUntil_invalid (now : Z) (s : string) :
  Date_parse s = None -> daysUntil now (Some s) = None.
Proof. intros Hp. unfold daysUntil. rewrite Hp. by case_bool_decide. Qed.

End WithHost.
End DatesFacts.

(** ** Status derivation *)

Module StatusFacts.
Import Js Dates RequirementsClient DateFacts DatesFacts.

Definition all_statuses : list UiStatus :=
  [OPEN; NEEDS_REVIEW; NEEDS_TRIAGE; COMPLETED; ARCHIVED; OVERDUE].

(** The three ways a record counts as archived. *)
Definition archived (record : Requirement) : Prop :=
  archive_state record = Some "archived"
  ∨ archive_state record = Some "deleted"
  ∨ status record = Some "ARCHIVED".

Lemma all_statuses_complete (u : UiStatus) : u ∈ all_statuses.
Proof. unfold all_statuses. destruct u; set_solver. Qed.

Lemma all_statuses_NoDup : NoDup all_statuses.
Proof. by apply (bool_decide_unpack _). Qed.

Section WithHost.
Context `{Js.Host}.

Ltac derive_cases :=
  unfold deriveUiStatus, strict_eq, nullish;
  repeat match goal with
    | |- context [bool_decide ?P] => destruct (bool_decide_reflect P); simpl
    end;
  repeat match goal with
    | |- context [number_below ?d ?b] => destruct (number_below d b) eqn:?
    end;
  simpl.

Lemma deriveUiStatus_archived_iff (now : Z) (record : Requirement) :
  deriveUiStatus now record = ARCHIVED ↔ archived record.
Proof.
  unfold archived. split.
  - derive_cases; intros; try discriminate; auto.
  - intros [Ha | [Ha | Ha]]; derive_cases; done.
Qed.

Lemma deriveUiStatus_overdue_iff (now : Z) (record : Requirement) :
  deriveUiStatus now record = OVERDUE
  ↔ ¬ archived record ∧ isOverdue now (due_date record) = true.
Proof.
  unfold archived, isOverdue. split.
  - derive_cases; intros; try discriminate; (split; [intros [? | [? | ?]] |]; done).
  - intros [Hna Hover]. derive_cases; try done; exfalso; apply Hna; auto.
Qed.

(** The archive state enters the derivation only through the two values
    ["archived"] and ["deleted"]. *)
Lemma deriveUiStatus_ignores_archive_state (now : Z) (record : Requirement) :
  archive_state record ≠ Some "archived" ->
  archive_state record ≠ Some "deleted" ->
  deriveUiStatus now record = deriveUiStatus now (with_archive_state None record).
Proof.
  intros Ha Hd. unfold deriveUiStatus, strict_eq. simpl.
  by rewrite !bool_decide_eq_false_2 by done.
Qed.

End WithHost.
End StatusFacts.

Module DerivedStatus.
Import Js Dates RequirementsClient DateFacts DatesFacts StatusFacts.

Section WithHost.
Context `{Js.Host}.

Lemma deriveUiStatus_due_date (now : Z) (record : Requirement) (value : option string) :
  daysUntil now (due_date record) = daysUntil now value ->
  deriveUiStatus now record = deriveUiStatus now (with_due_date value record).
Proof. intros Hd. unfold deriveUiStatus. simpl. by rewrite Hd. Qed.

(** C1. [deriveUiStatus] gives every record one of the six presentation
    statuses (and, being a function, only one), and a record whose archive
    state is ["archived"] or ["deleted"], or whose raw status is
    [ARCHIVED], is [ARCHIVED] at any time and whatever its other fields
    hold. *)
Theorem deriveUiStatus_archive_precedence (now : Z) (record : Requirement) :
  deriveUiStatus now record ∈ all_statuses
  ∧ (archive_state record = Some "archived"
     ∨ archive_state record = Some "deleted"
     ∨ status record = Some "ARCHIVED" ->
     deriveUiStatus now record = ARCHIVED).
Proof.
  split; [apply all_statuses_complete |].
  intros Harch. by apply deriveUiStatus_archived_iff.
Qed.

(** C2. Overdue is decided by the UTC calendar day: a due date on
    today's UTC day is due in 0 days and not overdue; with the clock at
    or after 1970, a due date on the day before is due in -1 days and a
    record that is not archived is [OVERDUE], whatever its raw status; a
    record without due date is never overdue; and the result is the same
    for all times of day of the due date and of the clock. *)
Theorem overdue_by_calendar_day (now target : Z) (s : string) (record : Requirement) :
  s ≠ "" -> Date_parse s = Some target ->
  due_date record = Some s ->
  archive_state record ≠ Some "archived" ->
  archive_state record ≠ Some "deleted" ->
  status record ≠ Some "ARCHIVED" ->
  (Day target = Day now ->
     daysUntil now (Some s) = Some 0 ∧ isOverdue now (Some s) = false
     ∧ deriveUiStatus now record ≠ OVERDUE)
  ∧ (0 <= now -> Day target = Day now - 1 ->
     daysUntil now (Some s) = Some (-1) ∧ isOverdue now (Some s) = true
     ∧ deriveUiStatus now record = OVERDUE)
  ∧ (daysUntil now None = None ∧ daysUntil now (Some "") = None
     ∧ isOverdue now None = false
     ∧ deriveUiStatus now (with_due_date None record) ≠ OVERDUE)
  ∧ (∀ now' target' s',
       s' ≠ "" -> Date_parse s' = Some target' ->
       Day target' = Day target -> Day now' = Day now ->
       daysUntil now' (Some s') = daysUntil now (Some s)).
Proof.
  intros Hs Hparse Hdue Ha Hd Hst.
  assert (Hna : ¬ archived record) by (intros [? | [? | ?]]; done).
  repeat split.
  - by apply (daysUntil_same_day now target).
  - unfold isOverdue. by rewrite (daysUntil_same_day now target).
  - rewrite deriveUiStatus_overdue_iff, Hdue. unfold isOverdue.
    rewrite (daysUntil_same_day now target) by done. by intros [_ ?].
  - rewrite (daysUntil_day_difference now target) by
      (try done; apply plain_year_since_1969;
       pose proof (Day_nonneg now); lia).
    f_equal. lia.
  - unfold isOverdue.
    rewrite (daysUntil_day_difference now target) by
      (try done; apply plain_year_since_1969;
       pose proof (Day_nonneg now); lia).
    simpl. apply Z.ltb_lt. lia.
  - apply deriveUiStatus_overdue_iff. split; [done |]. rewrite Hdue.
    unfold isOverdue.
    rewrite (daysUntil_day_difference now target) by
      (try done; apply plain_year_since_1969;
       pose proof (Day_nonneg now); lia).
    simpl. apply Z.ltb_lt. lia.
  - rewrite deriveUiStatus_overdue_iff. simpl. by intros [_ ?].
  - intros now' target' s' Hs' Hp' Ht Hn. by eapply daysUntil_by_day.
Qed.

(** C9. A due date that does not parse is treated like no due date:
    [daysUntil] returns null, the record is not [OVERDUE] and has the
    status it would have without due date, and [formatDate] shows the
    dash of a missing date. *)
Theorem unparsable_due_date_is_absent
    (now : Z) (s : string) (record : Requirement) (locale : Locale) :
  Date_parse s = None -> due_date record = Some s ->
  daysUntil now (Some s) = None
  ∧ isOverdue now (Some s) = false
  ∧ deriveUiStatus now record ≠ OVERDUE
  ∧ deriveUiStatus now record = deriveUiStatus now (with_due_date None record)
  ∧ formatDate (Some s) locale = em_dash
  ∧ formatDate (Some s) locale = formatDate None locale.
Proof.
  intros Hparse Hdue.
  assert (Hnone : daysUntil now (Some s) = None) by by apply daysUntil_invalid.
  assert (Hfmt : formatDate (Some s) locale = em_dash).
  { unfold formatDate. rewrite Hparse. by case_bool_decide. }
  repeat split; try done.
  - unfold isOverdue. by rewrite Hnone.
  - rewrite deriveUiStatus_overdue_iff, Hdue. unfold isOverdue.
    rewrite Hnone. by intros [_ ?].
  - apply deriveUiStatus_due_date. by rewrite Hdue, Hnone.
Qed.

(** C10. An archive state other than ["archived"] and ["deleted"] (such
    as ["pending"] or ["restored"]) on a record whose raw status is not
    [ARCHIVED] never gives [ARCHIVED]: the record has the status derived
    from its raw status and due date alone. *)
Theorem other_archive_states_do_not_archive (now : Z) (record : Requirement) :
  archive_state record ≠ Some "archived" ->
  archive_state record ≠ Some "deleted" ->
  status record ≠ Some "ARCHIVED" ->
  deriveUiStatus now record ≠ ARCHIVED
  ∧ deriveUiStatus now record = deriveUiStatus now (with_archive_state None record).
Proof.
  intros Ha Hd Hs. split.
  - rewrite deriveUiStatus_archived_iff. intros [? | [? | ?]]; done.
  - by apply deriveUiStatus_ignores_archive_state.
Qed.

End WithHost.

Import Samples.

Lemma deriveUiStatus_archive_precedence_witness :
  deriveUiStatus (H := SampleHost.host) noon
    (requirement "r1" (Some "PENDING_REVIEW") (Some "2026-10-01") (Some "deleted"))
  = ARCHIVED.
Proof.
  apply (deriveUiStatus_archive_precedence (H := SampleHost.host)).
  right. left. reflexivity.
Defined.

Lemma overdue_by_calendar_day_witness :
  (daysUntil (H := SampleHost.host) noon (Some "2026-11-02") = Some 0
   ∧ isOverdue (H := SampleHost.host) noon (Some "2026-11-02") = false
   ∧ deriveUiStatus (H := SampleHost.host) noon
       (requirement "r1" (Some "REVIEW") (Some "2026-11-02") None) ≠ OVERDUE)
  ∧ (daysUntil (H := SampleHost.host) noon (Some "2026-11-01") = Some (-1)
     ∧ isOverdue (H := SampleHost.host) noon (Some "2026-11-01") = true
     ∧ deriveUiStatus (H := SampleHost.host) noon
         (requirement "r1" (Some "REVIEW") (Some "2026-11-01") None) = OVERDUE).
Proof.
  split.
  - apply (overdue_by_calendar_day (H := SampleHost.host) noon 1793577600000
             "2026-11-02"
             (requirement "r1" (Some "REVIEW") (Some "2026-11-02") None));
      try done.
  - apply (overdue_by_calendar_day (H := SampleHost.host) noon 1793491200000
             "2026-11-01"
             (requirement "r1" (Some "REVIEW") (Some "2026-11-01") None));
      try done.
Defined.

Lemma unparsable_due_date_is_absent_witness :
  deriveUiStatus (H := SampleHost.host) noon
    (requirement "r1" (Some "DONE") (Some "next week") None) ≠ OVERDUE
  ∧ formatDate (H := SampleHost.host) (Some "next week") en = em_dash.
Proof.
  pose proof (unparsable_due_date_is_absent (H := SampleHost.host) noon
                "next week"
                (requirement "r1" (Some "DONE") (Some "next week") None) en
                eq_refl eq_refl) as (_ & _ & Hnot & _ & Hfmt & _).
  exact (conj Hnot Hfmt).
Defined.

Lemma other_archive_states_do_not_archive_witness :
  deriveUiStatus (H := SampleHost.host) noon
    (requirement "r1" (Some "OPEN") (Some "2026-12-01") (Some "pending"))
  ≠ ARCHIVED.
Proof.
  apply (other_archive_states_do_not_archive (H := SampleHost.host) noon
           (requirement "r1" (Some "OPEN") (Some "2026-12-01") (Some "pending")));
    done.
Defined.

End DerivedStatus.

(** ** Query strings, [split] and [join] *)

Module QueryFacts.
Import Js.

Lemma get_delete (name name' : string) (params : URLSearchParams.t) :
  URLSearchParams.get name' (URLSearchParams.delete name params)
  = if bool_decide (name = name') then None else URLSearchParams.get name' params.
Proof.
  unfold URLSearchParams.delete.
  induction params as [| [k v] rest IH].
  - simpl. by case_bool_decide.
  - rewrite filter_cons.
    destruct (decide ((k, v).1 ≠ name)) as [Hne | Heq]; simpl in *.
    + rewrite IH. repeat case_bool_decide; congruence.
    + apply dec_stable in Heq. subst k. rewrite IH.
      repeat case_bool_decide; congruence.
Qed.

Lemma get_delete_eq (name : string) (params : URLSearchParams.t) :
  URLSearchParams.get name (URLSearchParams.delete name params) = None.
Proof. rewrite get_delete. by rewrite bool_decide_eq_true_2. Qed.

Lemma get_delete_ne (name name' : string) (params : URLSearchParams.t) :
  name ≠ name' ->
  URLSearchParams.get name' (URLSearchParams.delete name params)
  = URLSearchParams.get name' params.
Proof. intros Hne. rewrite get_delete. by rewrite bool_decide_eq_false_2. Qed.

Lemma get_set (name name' value : string) (params : URLSearchParams.t) :
  URLSearchParams.get name' (URLSearchParams.set name value params)
  = if bool_decide (name = name') then Some value
    else URLSearchParams.get name' params.
Proof.
  induction params as [| [k v] rest IH]; simpl.
  - by repeat case_bool_decide.
  - destruct (bool_decide_reflect (k = name)) as [-> | Hk]; simpl.
    + destruct (bool_decide_reflect (name = name')) as [-> | Hn]; [done |].
      by rewrite get_delete_ne.
    + rewrite IH. repeat case_bool_decide; congruence.
Qed.

Lemma get_set_eq (name value : string) (params : URLSearchParams.t) :
  URLSearchParams.get name (URLSearchParams.set name value params) = Some value.
Proof. rewrite get_set. by rewrite bool_decide_eq_true_2. Qed.

Lemma get_set_ne (name name' value : string) (params : URLSearchParams.t) :
  name ≠ name' ->
  URLSearchParams.get name' (URLSearchParams.set name value params)
  = URLSearchParams.get name' params.
Proof. intros Hne. rewrite get_set. by rewrite bool_decide_eq_false_2. Qed.

(** After [set], the name has exactly one pair. *)
Lemma delete_set (name value : string) (params : URLSearchParams.t) :
  URLSearchParams.delete name (URLSearchParams.set name value params)
  = URLSearchParams.delete name params.
Proof.
  unfold URLSearchParams.delete.
  induction params as [| [k v] rest IH].
  - simpl. rewrite filter_cons_False by (by intros ?). done.
  - change (URLSearchParams.set name value ((k, v) :: rest))
      with (if bool_decide (k = name)
            then (name, value) :: URLSearchParams.delete name rest
            else (k, v) :: URLSearchParams.set name value rest).
    destruct (bool_decide_reflect (k = name)) as [-> | Hk].
    + rewrite !filter_cons_False by (by intros ?).
      unfold URLSearchParams.delete. by rewrite list_filter_filter_l by done.
    + rewrite !filter_cons_True by done. by rewrite IH.
Qed.

(** The characters of a string. *)
Fixpoint has_char (sep : ascii) (s : string) : bool :=
  match s with
  | EmptyString => false
  | String c r => bool_decide (c = sep) || has_char sep r
  end.

Lemma split_no_sep (sep : ascii) (s : string) :
  has_char sep s = false -> split sep s = [s].
Proof.
  induction s as [| c r IH]; simpl; [done |].
  intros [Hc Hr]%orb_false_iff. rewrite Hc, IH; done.
Qed.

Lemma split_append (sep : ascii) (piece rest : string) :
  has_char sep piece = false ->
  split sep (piece +:+ String sep rest) = piece :: split sep rest.
Proof.
  induction piece as [| c r IH]; simpl.
  - intros _. by rewrite bool_decide_eq_true_2.
  - intros [Hc Hr]%orb_false_iff. rewrite Hc, IH; done.
Qed.

(** [split] undoes [join] on pieces that are free of the separator. *)
Lemma split_join (sep : ascii) (pieces : list string) :
  pieces ≠ [] ->
  Forall (λ piece, has_char sep piece = false) pieces ->
  split sep (join sep pieces) = pieces.
Proof.
  induction pieces as [| piece rest IH]; [done |].
  intros _ Hall. apply Forall_cons in Hall as [Hpiece Hrest].
  destruct rest as [| piece' rest'].
  - simpl. by apply split_no_sep.
  - change (join sep (piece :: piece' :: rest'))
      with (piece +:+ String sep (join sep (piece' :: rest'))).
    rewrite split_append by done. f_equal. by apply IH.
Qed.

Lemma join_nonempty (sep : ascii) (pieces : list string) :
  pieces ≠ [] -> Forall (λ piece, piece ≠ "") pieces -> join sep pieces ≠ "".
Proof.
  destruct pieces as [| piece rest]; [done |].
  intros _ Hall. apply Forall_cons in Hall as [Hpiece _].
  destruct rest; simpl; [done |].
  destruct piece; [done | by simpl].
Qed.

End QueryFacts.

(** ** The filter codec and pagination *)

Module FilterFacts.
Import Js RequirementsClient QueryFacts.

Ltac query_cases :=
  unfold updateQueryParams;
  repeat match goal with
    | |- context [match ?x with _ => _ end] =>
        lazymatch x with
        | URLSearchParams.get _ _ => fail
        | _ => destruct x eqn:?
        end
    end;
  repeat (progress (rewrite ?get_set, ?get_delete; simpl)); try done.

(** What [updateQuery] leaves under each of the four names it writes. *)
Lemma updateQueryParams_due searchParams next :
  URLSearchParams.get "due" (updateQueryParams searchParams next)
  = match patch_dueFilters next with
    | None => URLSearchParams.get "due" (default [] searchParams)
    | Some [] => None
    | Some dueFilters => Some (join "," (DueFilter_token <$> dueFilters))
    end.
Proof. query_cases. Qed.

Lemma updateQueryParams_archived searchParams next :
  URLSearchParams.get "archived" (updateQueryParams searchParams next)
  = match patch_statusFilters next with
    | None => URLSearchParams.get "archived" (default [] searchParams)
    | Some statuses =>
        if bool_decide (archived ∈ statuses) then Some "true" else None
    end.
Proof. query_cases. Qed.

Lemma updateQueryParams_page searchParams next :
  URLSearchParams.get "page" (updateQueryParams searchParams next)
  = match patch_page next with
    | None => URLSearchParams.get "page" (default [] searchParams)
    | Some page => if page <=? 1 then None else Some (Number_toString page)
    end.
Proof. query_cases. Qed.

Lemma statusTokens_nonempty (a c t : bool) :
  a || c || t = true -> statusTokens a c t ≠ [].
Proof. by destruct a, c, t. Qed.

Lemma updateQueryParams_status searchParams next :
  URLSearchParams.get "status" (updateQueryParams searchParams next)
  = match patch_statusFilters next with
    | None => URLSearchParams.get "status" (default [] searchParams)
    | Some statuses =>
        let includeActive := bool_decide (active ∈ statuses) in
        let includeCompleted := bool_decide (completed ∈ statuses) in
        let includeTriage := bool_decide (triage ∈ statuses) in
        if bool_decide (archived ∈ statuses) then None
        else if includeActive || includeCompleted || includeTriage
        then Some (join "," (statusTokens includeActive includeCompleted includeTriage))
        else None
    end.
Proof.
  query_cases.
  all: match goal with
       | Hany : _ || _ || _ = true, Hnil : bool_decide (statusTokens _ _ _ ≠ []) = false |- _ =>
           apply statusTokens_nonempty in Hany;
           apply bool_decide_eq_false in Hnil; by destruct Hnil
       end.
Qed.

(** Archived is selected alone or not at all. *)
Definition exclusive (statuses : list StatusFilter) : Prop :=
  archived ∈ statuses -> ∀ bucket, bucket ∈ statuses -> bucket = archived.

Lemma toggleStatusFilter_exclusive (value : StatusFilter) (prev : list StatusFilter) :
  exclusive (toggleStatusFilter value prev).
Proof.
  unfold exclusive, toggleStatusFilter.
  repeat case_bool_decide; subst.
  - intros [Hne _]%list_elem_of_filter. done.
  - intros _ bucket Hb. by apply list_elem_of_singleton in Hb.
  - intros [_ [Hne _]%list_elem_of_filter]%list_elem_of_filter. done.
  - intros [[Hne _]%list_elem_of_filter | Hin%list_elem_of_singleton]%elem_of_app;
      done.
Qed.

(** C4. Archived excludes the other status buckets. Whatever was
    selected before, after a toggle archived is selected alone or not at
    all: switching archived on leaves archived only, and toggling another
    bucket drops archived (and selects the bucket if it was not). Encoding
    a selection with archived removes the [status] key and writes
    [archived=true]; encoding one without archived removes the [archived]
    key. *)
Theorem archived_excludes_other_buckets
    (value : StatusFilter) (prev statuses : list StatusFilter)
    (searchParams : option URLSearchParams.t) (next : QueryPatch) :
  patch_statusFilters next = Some statuses ->
  exclusive (toggleStatusFilter value prev)
  ∧ ((archived ∉ prev) -> toggleStatusFilter archived prev = [archived])
  ∧ (value ≠ archived ->
     (archived ∉ toggleStatusFilter value prev)
     ∧ ((value ∉ prev) -> value ∈ toggleStatusFilter value prev))
  ∧ (archived ∈ statuses ->
     URLSearchParams.get "status" (updateQueryParams searchParams next) = None
     ∧ URLSearchParams.get "archived" (updateQueryParams searchParams next)
       = Some "true")
  ∧ ((archived ∉ statuses) ->
     URLSearchParams.get "archived" (updateQueryParams searchParams next) = None).
Proof.
  intros Hpatch. split; [apply toggleStatusFilter_exclusive |].
  split; [| split; [| split]].
  - intros Hnot. unfold toggleStatusFilter.
    rewrite bool_decide_eq_true_2 by done. by rewrite bool_decide_eq_false_2.
  - intros Hvalue. unfold toggleStatusFilter.
    rewrite (bool_decide_eq_false_2 (value = archived)) by done.
    case_bool_decide as Hin.
    + split.
      * intros [_ [Hne _]%list_elem_of_filter]%list_elem_of_filter. done.
      * intros Hnot. apply list_elem_of_filter in Hin as [_ Hin]. done.
    + split.
      * intros [[Hne _]%list_elem_of_filter | Heq%list_elem_of_singleton]%elem_of_app;
          done.
      * intros _. apply elem_of_app. right. by apply list_elem_of_singleton.
  - intros Hin.
    rewrite updateQueryParams_status, updateQueryParams_archived, Hpatch.
    simpl. by rewrite !bool_decide_eq_true_2.
  - intros Hnot.
    rewrite updateQueryParams_archived, Hpatch. by rewrite bool_decide_eq_false_2.
Qed.

Lemma archived_excludes_other_buckets_witness :
  toggleStatusFilter archived [active; triage] = [archived]
  ∧ (archived ∉ toggleStatusFilter completed [archived])
  ∧ URLSearchParams.get "status"
      (updateQueryParams (Some [("status", "OPEN,REVIEW"); ("page", "2")])
         {| patch_dueFilters := None; patch_statusFilters := Some [archived];
            patch_page := Some 1 |}) = None.
Proof.
  pose proof (archived_excludes_other_buckets archived [active; triage] [archived]
                (Some [("status", "OPEN,REVIEW"); ("page", "2")])
                {| patch_dueFilters := None; patch_statusFilters := Some [archived];
                   patch_page := Some 1 |} eq_refl) as (_ & Hon & _ & Henc & _).
  pose proof (archived_excludes_other_buckets completed [archived] [archived]
                (Some [("status", "OPEN,REVIEW"); ("page", "2")])
                {| patch_dueFilters := None; patch_statusFilters := Some [archived];
                   patch_page := Some 1 |} eq_refl) as (_ & _ & Hoff & _).
  split; [| split].
  - apply Hon. by apply (bool_decide_unpack _).
  - by apply Hoff.
  - apply Henc. by apply (bool_decide_unpack _).
Defined.

#[export] Instance DueFilter_token_inj : Inj (=) (=) DueFilter_token.
Proof. intros [] [] Heq; done. Qed.

Lemma DueFilter_token_plain (f : DueFilter) :
  has_char "," (DueFilter_token f) = false
  ∧ DueFilter_token f ≠ ""
  ∧ trim (DueFilter_token f) = DueFilter_token f.
Proof. by destruct f. Qed.

Lemma dueFilterOptions_complete (f : DueFilter) : f ∈ dueFilterOptions.
Proof. destruct f; repeat constructor. Qed.

Lemma parseDueFilters_unfold params raw :
  URLSearchParams.get "due" params = Some raw -> raw ≠ "" ->
  parseDueFilters (Some params)
  = filter (λ option, DueFilter_token option ∈ trim <$> split "," raw)
      dueFilterOptions.
Proof.
  intros Hget Hraw. unfold parseDueFilters. rewrite Hget. simpl.
  by rewrite bool_decide_eq_false_2.
Qed.

(** C6. Decoding the encoded due filters gives back the same set of
    filters, listed in the order of [dueFilterOptions] whatever the order
    of the selection. In general the decoder keeps exactly the options
    whose token is among the trimmed comma-separated pieces of the [due]
    value, so unknown tokens are dropped, and its result is always an
    ordered part of [dueFilterOptions]. *)
Theorem due_filters_round_trip
    (searchParams : option URLSearchParams.t) (next : QueryPatch)
    (selection : list DueFilter) :
  patch_dueFilters next = Some selection ->
  parseDueFilters (Some (updateQueryParams searchParams next))
    = filter (λ option, option ∈ selection) dueFilterOptions
  ∧ (∀ option,
       option ∈ parseDueFilters (Some (updateQueryParams searchParams next))
       ↔ option ∈ selection)
  ∧ (∀ params raw option,
       URLSearchParams.get "due" params = Some raw -> raw ≠ "" ->
       option ∈ parseDueFilters (Some params)
       ↔ DueFilter_token option ∈ trim <$> split "," raw)
  ∧ (∀ params, parseDueFilters params `sublist_of` dueFilterOptions).
Proof.
  intros Hpatch.
  assert (Hdecode :
    parseDueFilters (Some (updateQueryParams searchParams next))
    = filter (λ option, option ∈ selection) dueFilterOptions).
  { destruct selection as [| first rest] eqn:Hsel.
    - unfold parseDueFilters.
      rewrite updateQueryParams_due, Hpatch. simpl. done.
    - rewrite <- Hsel in *.
      assert (Hne : selection ≠ []) by (by rewrite Hsel).
      assert (Hget :
        URLSearchParams.get "due" (updateQueryParams searchParams next)
        = Some (join "," (DueFilter_token <$> selection))).
      { rewrite updateQueryParams_due, Hpatch. by rewrite Hsel. }
      rewrite (parseDueFilters_unfold _ _ Hget).
      + rewrite split_join.
        * rewrite <- list_fmap_compose.
          rewrite (list_fmap_ext (trim ∘ DueFilter_token) DueFilter_token selection)
            by (intros; apply DueFilter_token_plain).
          apply list_filter_iff. intros option.
          apply (list_elem_of_fmap_inj DueFilter_token).
        * intros Hnil. by apply fmap_nil_inv in Hnil.
        * apply Forall_fmap, Forall_forall. intros f _. apply DueFilter_token_plain.
      + apply join_nonempty.
        * intros Hnil. by apply fmap_nil_inv in Hnil.
        * apply Forall_fmap, Forall_forall. intros f _. apply DueFilter_token_plain. }
  split; [exact Hdecode |]. split; [| split].
  - intros option. rewrite Hdecode, list_elem_of_filter.
    split; [by intros [? _] |]. intros Hin. split; [done |].
    apply dueFilterOptions_complete.
  - intros params raw option Hget Hraw.
    rewrite (parseDueFilters_unfold _ _ Hget Hraw), list_elem_of_filter.
    split; [by intros [? _] |]. intros Hin. split; [done |].
    apply dueFilterOptions_complete.
  - intros [params |]; unfold parseDueFilters; [| apply sublist_nil_l].
    destruct (falsy _); [apply sublist_nil_l | apply sublist_filter].
Qed.

Lemma due_filters_round_trip_witness :
  parseDueFilters
    (Some (updateQueryParams (Some [("due", "overdue"); ("page", "4")])
             {| patch_dueFilters := Some [due30; overdue];
                patch_statusFilters := None; patch_page := Some 1 |}))
  = [overdue; due30].
Proof.
  pose proof (due_filters_round_trip (Some [("due", "overdue"); ("page", "4")])
                {| patch_dueFilters := Some [due30; overdue];
                   patch_statusFilters := None; patch_page := Some 1 |}
                [due30; overdue] eq_refl) as [Heq _].
  exact Heq.
Defined.

End FilterFacts.

(** ** The selection *)

Module SelectionFacts.
Import Js RequirementsClient.

(** A row of the mirror with this id is in triage. *)
Definition in_triage (rows : list Requirement) (key : string) : Prop :=
  ∃ item, item ∈ rows ∧ id item = key ∧ status item = Some "PENDING_REVIEW".

(** Every selected id has a row in triage in the mirror. *)
Definition selection_ok (st : State) : Prop :=
  ∀ key, key ∈ selectedIds st -> in_triage (requirementRows st) key.

Lemma elem_of_purgeSelection (rows : list Requirement) (prev : list string) (key : string) :
  key ∈ purgeSelection rows prev ↔ key ∈ prev ∧ in_triage rows key.
Proof.
  unfold purgeSelection, in_triage.
  rewrite list_elem_of_filter, Exists_exists. tauto.
Qed.

Lemma setRequirementRows_ok (rows : list Requirement) (st : State) :
  selection_ok (setRequirementRows rows st).
Proof. intros key Hkey. simpl in *. by apply elem_of_purgeSelection in Hkey as [_ ?]. Qed.

(** C3. After the mirror is replaced, by the rows of a reload or by an
    upsert of a mutated row, the selection holds only ids that have a row
    in the new mirror whose raw status is [PENDING_REVIEW]: an id stays
    selected exactly when it was selected and still has such a row. *)
Theorem selection_after_mirror_replacement
    (st : State) (rows : list Requirement) (updated : Requirement) (key : string) :
  selection_ok (setRequirementRows rows st)
  ∧ selection_ok (refreshAndHydrate (Some rows) st)
  ∧ selection_ok (setRequirementRows (upsert updated (requirementRows st)) st)
  ∧ requirementRows (setRequirementRows rows st) = rows
  ∧ (key ∈ selectedIds (setRequirementRows rows st)
     ↔ key ∈ selectedIds st ∧ in_triage rows key)
  ∧ (key ∈ selectedIds (setRequirementRows (upsert updated (requirementRows st)) st)
     ↔ key ∈ selectedIds st ∧ in_triage (upsert updated (requirementRows st)) key).
Proof.
  split; [apply setRequirementRows_ok |].
  split; [apply setRequirementRows_ok |].
  split; [apply setRequirementRows_ok |].
  split; [done |].
  split; apply elem_of_purgeSelection.
Qed.

End SelectionFacts.

(** ** White space and [trim] *)

Module TrimFacts.
Import Js.





End TrimFacts.

(** ** The archive workflows *)

Module ArchiveFacts.
Import Js RequirementsClient TriagePanel TrimFacts.

(** No effect of the list is a network call. *)
Definition offline (effects : list Effect) : Prop :=
  Forall (λ effect, is_network effect = false) effects.


Import Samples.


End ArchiveFacts.

(** ** Bulk triage *)

Module TriageFacts.
Import Js RequirementsClient TriagePanel ArchiveFacts.

Section WithHost.
Context `{Js.Host}.

(** A rejected form: one error toast, no network call, no change. *)
Lemma submit_invalid selected form key response latest st :
  validation form = Some key ->
  handleSubmit selected form = Invalid key
  ∧ submit selected form response latest st = (st, [Toast error (Translated key)])
  ∧ offline [Toast error (Translated key)].
Proof.
  intros Hinv. unfold submit, handleSubmit. rewrite Hinv.
  split; [done |]. split; [done |]. by repeat constructor.
Qed.

(** The dates of the form that the payload needs can be read. *)
Definition dates_readable (form : FormState) : Prop :=
  (∀ a, truthy (form_anchorType form) ≠ None ->
        truthy (form_anchorDate form) = Some a -> is_Some (Date_parse a))
  ∧ (∀ d, truthy (form_dueDate form) = Some d -> is_Some (Date_parse d)).

(** The interval entries of the anchor value of an every-N frequency. *)
Definition interval_key (frequency : string) : option string :=
  if bool_decide (frequency = "EVERY_N_DAYS") then Some "days"
  else if bool_decide (frequency = "EVERY_N_WEEKS") then Some "weeks"
  else if bool_decide (frequency = "EVERY_N_MONTHS") then Some "months"
  else None.

Lemma interval_key_every (frequency unit : string) :
  interval_key frequency = Some unit ->
  requiresInterval frequency = true
  ∧ frequency ≠ "" ∧ frequency ∉ ["BEFORE_EACH_USE"; "ONE_TIME"].
Proof.
  unfold interval_key. intros Hunit.
  repeat case_bool_decide; simplify_eq; repeat split; try done;
    by apply (bool_decide_unpack _).
Qed.

Lemma anchorWithInterval_lookup frequency unit x anchor_value :
  interval_key frequency = Some unit -> falsy_number x = false ->
  ∃ anchor,
    anchorWithInterval frequency (Some x) anchor_value = Some anchor
    ∧ anchor !! "interval" = Some (Num x)
    ∧ anchor !! unit = Some (Num x)
    ∧ (∀ key, key ≠ "interval" -> key ≠ unit ->
         anchor !! key = default ∅ anchor_value !! key).
Proof.
  intros Hunit Hfalsy.
  destruct (interval_key_every _ _ Hunit) as (Hevery & _ & _).
  unfold anchorWithInterval. rewrite Hevery, Hfalsy. simpl.
  eexists. split; [done |]. unfold interval_key in Hunit.
  repeat case_bool_decide; simplify_eq; repeat split;
    try (intros key ? ?);
    by rewrite ?lookup_insert_eq, ?lookup_insert_ne, ?lookup_insert_eq by done.
Qed.

Lemma handleSubmit_interval selected form frequency interval x unit :
  falsy (form_status form) = false ->
  form_frequency form = Some frequency ->
  interval_key frequency = Some unit ->
  falsy (form_dueDate form) = false ->
  form_interval form = Some interval -> interval ≠ "" ->
  Number_of interval = x ->
  falsy_number x = false -> PrimFloat.is_nan x = false -> PrimFloat.leb x 0 = false ->
  dates_readable form ->
  ∃ payload anchor,
    handleSubmit selected form = Ready payload
    ∧ payload_frequency payload = Some frequency
    ∧ payload_anchor_value payload = Some anchor
    ∧ anchor !! "interval" = Some (Num x)
    ∧ anchor !! unit = Some (Num x).
Proof.
  intros Hstatus Hfreq Hunit Hdue Hint Hne Hx Hfalsy Hnan Hleb [Hanchor Hduedate].
  destruct (interval_key_every _ _ Hunit) as (Hevery & Hfne & Hnot).
  assert (Hival : intervalValue form = Some x).
  { unfold intervalValue, truthy. rewrite Hint. simpl.
    rewrite bool_decide_eq_false_2 by done. simpl. by rewrite Hx. }
  assert (Hvalid : validation form = None).
  { unfold validation. rewrite Hstatus, Hfreq, Hival. simpl.
    rewrite (bool_decide_eq_false_2 (frequency = "")) by done.
    rewrite (bool_decide_eq_false_2 (frequency ∈ _)) by done.
    rewrite Hdue, Hevery, Hfalsy, Hnan, Hleb. done. }
  assert (Hd : ∃ due, dueOfForm form = Some due).
  { unfold dueOfForm. destruct (truthy (form_dueDate form)) as [d |] eqn:Hd; [| eauto].
    destruct (Hduedate d eq_refl) as [t Ht]. unfold isoOf. rewrite Ht. simpl. eauto. }
  assert (Ha : ∃ anchor_value, anchorOfForm form = Some anchor_value).
  { unfold anchorOfForm.
    destruct (truthy (form_anchorType form)) as [ty |] eqn:Hty; [| eauto].
    destruct (truthy (form_anchorDate form)) as [a |] eqn:Hda; [| eauto].
    destruct (Hanchor a ltac:(done) eq_refl) as [t Ht].
    unfold isoOf. rewrite Ht. simpl. eauto. }
  destruct Hd as [due Hd]. destruct Ha as [anchor_value Ha].
  destruct (anchorWithInterval_lookup frequency unit x anchor_value Hunit Hfalsy)
    as (anchor & Hanc & Hi & Hu & _).
  unfold handleSubmit. rewrite Hvalid, Ha, Hd, Hival, Hfreq. simpl.
  eexists _, anchor. repeat split; done.
Qed.

(** The interval is missing, not a number, or not positive. *)
Definition interval_unusable (form : FormState) : Prop :=
  match intervalValue form with
  | None => True
  | Some x => falsy_number x || PrimFloat.is_nan x || PrimFloat.leb x 0 = true
  end.

(** C7. Saving a bulk triage is refused before any network call, with one
    error toast and the state unchanged, when the status is missing, when
    the frequency is missing, when the due date is missing for a
    frequency other than [BEFORE_EACH_USE] and [ONE_TIME], and when an
    every-N frequency (such as [EVERY_N_WEEKS]) comes with no interval or
    with one that is zero, negative or not a number. With an interval of
    2 and dates that can be read, the payload's [anchor_value] holds
    [interval: 2] and, for [EVERY_N_DAYS], [EVERY_N_WEEKS] and
    [EVERY_N_MONTHS], [days: 2], [weeks: 2] and [months: 2], and the
    request is sent. *)
Theorem triage_save_validation
    (selected : list Requirement) (form : FormState)
    (response : Settled unit) (latest : Settled (option (list Requirement)))
    (st : State) :
  (∀ key, validation form = Some key ->
     handleSubmit selected form = Invalid key
     ∧ submit selected form response latest st = (st, [Toast error (Translated key)])
     ∧ offline [Toast error (Translated key)])
  ∧ (falsy (form_status form) = true -> validation form = Some "triage.statusRequired")
  ∧ (falsy (form_status form) = false -> falsy (form_frequency form) = true ->
     validation form = Some "triage.frequencyRequired")
  ∧ (∀ frequency,
       falsy (form_status form) = false ->
       form_frequency form = Some frequency -> frequency ≠ "" ->
       (frequency ∉ ["BEFORE_EACH_USE"; "ONE_TIME"]) ->
       falsy (form_dueDate form) = true ->
       validation form = Some "triage.dueRequired")
  ∧ (∀ frequency,
       form_frequency form = Some frequency -> requiresInterval frequency = true ->
       interval_unusable form ->
       (∃ key, validation form = Some key)
       ∧ (falsy (form_status form) = false -> falsy (form_dueDate form) = false ->
          validation form = Some "triage.intervalRequired"))
  ∧ (∀ frequency unit interval,
       falsy (form_status form) = false ->
       form_frequency form = Some frequency ->
       interval_key frequency = Some unit ->
       falsy (form_dueDate form) = false ->
       form_interval form = Some interval -> interval ≠ "" ->
       Number_of interval = 2%float ->
       dates_readable form ->
       ∃ payload anchor st',
         handleSubmit selected form = Ready payload
         ∧ payload_anchor_value payload = Some anchor
         ∧ anchor !! "interval" = Some (Num 2)
         ∧ anchor !! unit = Some (Num 2)
         ∧ submit selected form (Fulfilled ()) (Fulfilled None) st
           = (st', [Post "/requirements/triage/bulk" (TriageBody payload);
                    Toast success (Translated "triage.success"); Revalidate])).
Proof.
  split; [intros key; apply submit_invalid |].
  split; [intros Hs; unfold validation; by rewrite Hs |].
  split; [intros Hs Hf; unfold validation; by rewrite Hs, Hf |].
  split; [| split].
  - intros frequency Hs Hf Hne Hnot Hd. unfold validation.
    rewrite Hs, Hf, Hd. simpl.
    rewrite (bool_decide_eq_false_2 (frequency = "")) by done.
    by rewrite (bool_decide_eq_false_2 (frequency ∈ _)) by done.
  - intros frequency Hf Hevery Hbad.
    assert (Hfne : frequency ≠ "") by (by intros ->).
    assert (Hmissing :
      match intervalValue form with
      | Some x => falsy_number x || PrimFloat.is_nan x || PrimFloat.leb x 0
      | None => true
      end = true).
    { unfold interval_unusable in Hbad. by destruct (intervalValue form). }
    split.
    + unfold validation. rewrite Hf. simpl.
      rewrite (bool_decide_eq_false_2 (frequency = "")) by done.
      rewrite Hevery, Hmissing. simpl.
      destruct (falsy (form_status form)); [eauto |].
      destruct (_ && falsy (form_dueDate form)); eauto.
    + intros Hs Hd. unfold validation. rewrite Hs, Hf, Hd. simpl.
      rewrite (bool_decide_eq_false_2 (frequency = "")) by done.
      by rewrite andb_false_r, Hevery, Hmissing.
  - intros frequency unit interval Hs Hf Hunit Hd Hint Hne Hx Hdates.
    destruct (handleSubmit_interval selected form frequency interval 2%float unit)
      as (payload & anchor & Hready & _ & Hanchor & Hi & Hu); try done.
    exists payload, anchor. eexists. repeat split; try done.
    unfold submit. rewrite Hready. simpl. done.
Qed.

End WithHost.

Import Samples.

Lemma triage_save_validation_witness :
    validation (H := SampleHost.host) (fortnightly None)
    = Some "triage.intervalRequired"
    ∧ ∃ payload anchor,
        handleSubmit (H := SampleHost.host)
          [requirement "r1" (Some "PENDING_REVIEW") None None] (fortnightly (Some "2"))
        = Ready payload
        ∧ payload_anchor_value payload = Some anchor
        ∧ anchor !! "interval" = Some (Num 2)
        ∧ anchor !! "weeks" = Some (Num 2).
Proof.
  split.
  - pose proof (triage_save_validation (H := SampleHost.host) [] (fortnightly None)
                  (Fulfilled ()) (Fulfilled None) page_state)
      as (_ & _ & _ & _ & Hinterval & _).
    by apply (Hinterval "EVERY_N_WEEKS").
  - pose proof (triage_save_validation (H := SampleHost.host)
                  [requirement "r1" (Some "PENDING_REVIEW") None None]
                  (fortnightly (Some "2")) (Fulfilled ()) (Fulfilled None) page_state)
      as (_ & _ & _ & _ & _ & Hready).
    destruct (Hready "EVERY_N_WEEKS" "weeks" "2") as (payload & anchor & st' & Hp & Ha & Hi & Hw & _);
      try done.
    + split.
      * intros a _ Ha. injection Ha as <-. by eexists.
      * intros d Hd. injection Hd as <-. by eexists.
    + by exists payload, anchor.
Defined.

End TriageFacts.

(** ** More on the filter codec *)

Module CodecFacts.
Import Js RequirementsClient QueryFacts FilterFacts.

(** The four names [updateQuery] writes. *)
Definition codec_names : list string := ["due"; "status"; "archived"; "page"].

Lemma filter_delete_other (P : string * string -> Prop) `{∀ kv, Decision (P kv)}
    (name : string) (params : URLSearchParams.t) :
  (∀ value, ¬ P (name, value)) ->
  filter P (URLSearchParams.delete name params) = filter P params.
Proof.
  intros Hname. unfold URLSearchParams.delete.
  induction params as [| [k v] rest IH]; [done |].
  destruct (decide (k = name)) as [-> | Hne].
  - rewrite (filter_cons_False (λ kv, kv.1 ≠ name)) by (by intros ?).
    rewrite (filter_cons_False P) by apply Hname. exact IH.
  - rewrite (filter_cons_True (λ kv, kv.1 ≠ name)) by done.
    rewrite !(filter_cons P). by rewrite IH.
Qed.

Lemma filter_set_other (P : string * string -> Prop) `{∀ kv, Decision (P kv)}
    (name value : string) (params : URLSearchParams.t) :
  (∀ value, ¬ P (name, value)) ->
  filter P (URLSearchParams.set name value params) = filter P params.
Proof.
  intros Hname.
  induction params as [| [k v] rest IH].
  - simpl. by rewrite filter_cons_False by apply Hname.
  - change (URLSearchParams.set name value ((k, v) :: rest))
      with (if bool_decide (k = name)
            then (name, value) :: URLSearchParams.delete name rest
            else (k, v) :: URLSearchParams.set name value rest).
    destruct (bool_decide_reflect (k = name)) as [-> | Hne].
    + rewrite !(filter_cons_False P) by apply Hname.
      by apply filter_delete_other.
    + rewrite !(filter_cons P). by rewrite IH.
Qed.

(** [updateQuery] never touches the parameters it does not own: their
    pairs stay, in their order, whatever the patch; and the empty patch
    changes nothing at all. *)
Theorem updateQuery_keeps_other_parameters
    (searchParams : option URLSearchParams.t) (next : QueryPatch) (name : string) :
  filter (λ kv, kv.1 ∉ codec_names) (updateQueryParams searchParams next)
  = filter (λ kv, kv.1 ∉ codec_names) (default [] searchParams)
  ∧ ((name ∉ codec_names) ->
     URLSearchParams.get name (updateQueryParams searchParams next)
     = URLSearchParams.get name (default [] searchParams))
  ∧ updateQueryParams searchParams
      {| patch_dueFilters := None; patch_statusFilters := None; patch_page := None |}
    = default [] searchParams.
Proof.
  split; [| split; [| done]].
  - unfold updateQueryParams.
    repeat match goal with
      | |- context [match ?x with _ => _ end] => destruct x
      end;
      repeat (rewrite ?filter_set_other, ?filter_delete_other
                by (intros value Hin; apply Hin; by apply (bool_decide_unpack _)));
      done.
  - intros Hname.
    assert (Hne : name ≠ "due" ∧ name ≠ "status" ∧ name ≠ "archived" ∧ name ≠ "page").
    { repeat split; intros ->; apply Hname; by apply (bool_decide_unpack _). }
    destruct Hne as (? & ? & ? & ?).
    unfold updateQueryParams.
    repeat match goal with
      | |- context [match ?x with _ => _ end] =>
          lazymatch x with
          | URLSearchParams.get _ _ => fail
          | _ => destruct x
          end
      end;
      repeat (rewrite ?get_set_ne, ?get_delete_ne by done); done.
Qed.

Lemma updateQuery_keeps_other_parameters_witness :
  URLSearchParams.get "q"
    (updateQueryParams (Some [("q", "ppe"); ("page", "3"); ("due", "due7")])
       {| patch_dueFilters := Some []; patch_statusFilters := Some [archived];
          patch_page := Some 1 |})
  = Some "ppe".
Proof.
  apply (updateQuery_keeps_other_parameters
           (Some [("q", "ppe"); ("page", "3"); ("due", "due7")])
           {| patch_dueFilters := Some []; patch_statusFilters := Some [archived];
              patch_page := Some 1 |} "q").
  by apply (bool_decide_unpack _).
Defined.

Lemma resolvePage_positive (searchParams : option URLSearchParams.t) :
  at_most 1 (resolvePage searchParams).
Proof.
  unfold resolvePage, at_most. destruct (falsy _); [done |].
  destruct (parseInt _) as [parsed |]; [| done].
  by destruct (below parsed 1) eqn:Hbelow.
Qed.

(** The due filters decoded from what [updateQuery] wrote. *)
Lemma parseDueFilters_updateQuery searchParams next selection :
  patch_dueFilters next = Some selection ->
  parseDueFilters (Some (updateQueryParams searchParams next))
  = filter (λ option, option ∈ selection) dueFilterOptions.
Proof.
  intros Hpatch. destruct selection as [| first rest] eqn:Hsel.
  - unfold parseDueFilters. by rewrite updateQueryParams_due, Hpatch.
  - rewrite <- Hsel in *.
    assert (Hne : DueFilter_token <$> selection ≠ []).
    { rewrite Hsel. done. }
    assert (Hplain : ∀ P : string -> Prop,
              (∀ f, P (DueFilter_token f)) -> Forall P (DueFilter_token <$> selection)).
    { intros P HP. apply Forall_fmap, Forall_forall. intros f _. apply HP. }
    assert (Hget :
      URLSearchParams.get "due" (updateQueryParams searchParams next)
      = Some (join "," (DueFilter_token <$> selection))).
    { rewrite updateQueryParams_due, Hpatch. by rewrite Hsel. }
    rewrite (parseDueFilters_unfold _ _ Hget).
    + rewrite split_join by (try done; apply Hplain; intros f; apply DueFilter_token_plain).
      rewrite <- list_fmap_compose.
      rewrite (list_fmap_ext (trim ∘ DueFilter_token) DueFilter_token selection)
        by (intros; apply DueFilter_token_plain).
      apply list_filter_iff. intros option.
      apply (list_elem_of_fmap_inj DueFilter_token).
    + apply join_nonempty; [done |].
      apply Hplain. intros f. apply DueFilter_token_plain.
Qed.

Section WithHost.
Context `{Js.Host}.

(** The tokens of [STATUS_QUERY_MAP]. *)
Definition status_tokens : list string :=
  ["OPEN"; "REVIEW"; "DONE"; "READY"; "PENDING_REVIEW"].

Lemma status_token_plain (token : string) :
  token ∈ status_tokens ->
  toUpperCase (trim token) = token ∧ has_char "," token = false.
Proof.
  unfold status_tokens. rewrite !elem_of_cons, elem_of_nil.
  intros [-> | [-> | [-> | [-> | [-> | []]]]]];
    (split; [| done]);
    match goal with
    | |- toUpperCase (trim ?tok) = _ => change (trim tok) with tok
    end;
    by rewrite toUpperCase_ascii.
Qed.

Lemma statusTokens_known (a c t : bool) :
  Forall (λ token, token ∈ status_tokens) (statusTokens a c t).
Proof.
  destruct a, c, t; repeat constructor; by apply (bool_decide_unpack _).
Qed.

Lemma decode_statusTokens (a c t : bool) :
  a || c || t = true ->
  (λ token, toUpperCase (trim token)) <$> split "," (join "," (statusTokens a c t))
  = statusTokens a c t.
Proof.
  intros Hany. pose proof (statusTokens_known a c t) as Hknown.
  rewrite split_join.
  - apply list_eq. intros i. rewrite list_lookup_fmap.
    destruct (statusTokens a c t !! i) as [token |] eqn:Hi; [| done]. simpl.
    f_equal. apply status_token_plain.
    rewrite Forall_forall in Hknown. apply Hknown.
    by eapply list_elem_of_lookup_2.
  - by apply statusTokens_nonempty.
  - eapply Forall_impl; [exact Hknown |]. intros token Hin.
    by apply status_token_plain.
Qed.

(** The buckets the decoder reads from a status value. *)
Definition decoded_buckets (statuses : list StatusFilter) : list StatusFilter :=
  filter (λ bucket, bucket ∈ statuses) [completed; active; triage].

Lemma parseStatusFilters_updateQuery searchParams next statuses :
  patch_statusFilters next = Some statuses ->
  parseStatusFilters (Some (updateQueryParams searchParams next))
  = (if bool_decide (archived ∈ statuses) then [archived] else decoded_buckets statuses).
Proof.
  intros Hpatch. unfold parseStatusFilters. simpl.
  rewrite updateQueryParams_archived, updateQueryParams_status, Hpatch. simpl.
  destruct (bool_decide_reflect (archived ∈ statuses)) as [Harch | Harch]; [done |].
  change (strict_eq None "true") with false. cbv iota.
  unfold decoded_buckets. rewrite !filter_cons, filter_nil.
  destruct (decide (completed ∈ statuses)), (decide (active ∈ statuses)),
    (decide (triage ∈ statuses));
    repeat match goal with
      | Hin : _ ∈ statuses |- _ => rewrite (bool_decide_eq_true_2 _ Hin); clear Hin
      | Hin : ¬ (_ ∈ statuses) |- _ => rewrite (bool_decide_eq_false_2 _ Hin); clear Hin
      end;
    cbv [orb];
    try done;
    match goal with
    | |- context [join "," (statusTokens ?a ?c ?t)] =>
        change (falsy (Some (join "," (statusTokens a c t)))) with false;
        cbv iota;
        change (nullish (Some (join "," (statusTokens a c t))) "")
          with (join "," (statusTokens a c t));
        rewrite (decode_statusTokens a c t) by done
    end; done.
Qed.

Lemma decoded_same_set statuses bucket :
  exclusive statuses ->
  bucket ∈ (if bool_decide (archived ∈ statuses) then [archived]
            else decoded_buckets statuses)
  ↔ bucket ∈ statuses.
Proof.
  intros Hexcl.
  destruct (bool_decide_reflect (archived ∈ statuses)) as [Harch | Harch].
  - rewrite list_elem_of_singleton. split; [by intros -> | by apply Hexcl].
  - unfold decoded_buckets. rewrite list_elem_of_filter.
    split; [by intros [? _] |]. intros Hin. split; [done |].
    destruct bucket; [| | done |]; repeat constructor.
Qed.

(** Status filters survive the URL: decoding what [updateQuery] wrote
    gives archived alone when archived was selected, and otherwise the
    selected ones of completed, active and triage, in that order; so a
    selection in which archived excludes the others is decoded to the
    same set. *)
Theorem status_filters_round_trip
    (searchParams : option URLSearchParams.t) (next : QueryPatch)
    (statuses : list StatusFilter) :
  patch_statusFilters next = Some statuses ->
  parseStatusFilters (Some (updateQueryParams searchParams next))
  = (if bool_decide (archived ∈ statuses) then [archived] else decoded_buckets statuses)
  ∧ (exclusive statuses ->
     ∀ bucket,
       bucket ∈ parseStatusFilters (Some (updateQueryParams searchParams next))
       ↔ bucket ∈ statuses).
Proof.
  intros Hpatch. split; [by apply parseStatusFilters_updateQuery |].
  intros Hexcl bucket. rewrite (parseStatusFilters_updateQuery _ _ _ Hpatch).
  by apply decoded_same_set.
Qed.

(** Applying the filter panel and reading the new URL back gives the
    filters of the panel: the same due filters, the same status filters
    when archived excludes the others, and page 1. The mirror and the
    selection are emptied on the way, and the panel is closed. The same
    holds for clearing, with no filter at all. *)
Theorem applyFilters_round_trip (searchParams : option URLSearchParams.t) (st : State) :
  (∃ params st',
     applyFilters searchParams st = (st', [RouterReplace params])
     ∧ requirementRows st' = [] ∧ selectedIds st' = [] ∧ filtersOpen st' = false
     ∧ (∀ f, f ∈ parseDueFilters (Some params) ↔ f ∈ pendingDueFilters st)
     ∧ (exclusive (pendingStatusFilters st) ->
        ∀ bucket, bucket ∈ parseStatusFilters (Some params)
                  ↔ bucket ∈ pendingStatusFilters st)
     ∧ resolvePage (Some params) = 1)
  ∧ (∃ params st',
       clearFilters searchParams st = (st', [RouterReplace params])
       ∧ requirementRows st' = [] ∧ selectedIds st' = []
       ∧ pendingDueFilters st' = [] ∧ pendingStatusFilters st' = []
       ∧ parseDueFilters (Some params) = []
       ∧ parseStatusFilters (Some params) = []
       ∧ resolvePage (Some params) = 1).
Proof.
  assert (Hpage : ∀ next, patch_page next = Some 1 ->
            resolvePage (Some (updateQueryParams searchParams next)) = 1).
  { intros next Hnext. unfold resolvePage. simpl.
    by rewrite updateQueryParams_page, Hnext. }
  split.
  - set (next := {| patch_dueFilters := Some (pendingDueFilters st);
                    patch_statusFilters := Some (pendingStatusFilters st);
                    patch_page := Some 1 |}).
    exists (updateQueryParams searchParams next). eexists.
    split; [reflexivity |].
    split; [done |]. split; [done |]. split; [done |].
    rewrite (parseDueFilters_updateQuery _ next (pendingDueFilters st)) by done.
    rewrite (parseStatusFilters_updateQuery _ next (pendingStatusFilters st)) by done.
    split; [| split].
    + intros f. rewrite list_elem_of_filter. split; [by intros [? _] |].
      intros Hin. split; [done | apply dueFilterOptions_complete].
    + intros Hexcl bucket. by apply decoded_same_set.
    + by apply Hpage.
  - set (next := {| patch_dueFilters := Some []; patch_statusFilters := Some [];
                    patch_page := Some 1 |}).
    exists (updateQueryParams searchParams next). eexists.
    split; [reflexivity |].
    split; [done |]. split; [done |]. split; [done |]. split; [done |].
    rewrite (parseDueFilters_updateQuery _ next []) by done.
    rewrite (parseStatusFilters_updateQuery _ next []) by done.
    split; [done |]. split; [done |]. by apply Hpage.
Qed.

(** What is asked from the server never carries both [archived] and
    [status], for any URL: with [archived=true] in the URL the status
    value is not sent. The page asked is at least 1 and the limit is the
    page size. *)
Theorem request_archived_or_status (searchParams : option URLSearchParams.t) :
  let query :=
    queryParams (resolvePage searchParams) (parseDueFilters searchParams)
      (parseStatusFilters searchParams) in
  (query_archived query = None ∨ query_status query = None)
  ∧ (searchParams ≫= URLSearchParams.get "archived" = Some "true" ->
     query_archived query = Some "true" ∧ query_status query = None)
  ∧ at_most 1 (query_page query)
  ∧ query_limit query = PAGE_SIZE.
Proof.
  intros query. subst query. unfold queryParams. simpl.
  split; [| split; [| split; [| done]]].
  - destruct (bool_decide (archived ∈ _)); auto.
  - intros Harch.
    assert (Hin : archived ∈ parseStatusFilters searchParams).
    { unfold parseStatusFilters. rewrite Harch.
      change (strict_eq (Some "true") "true") with true. cbv iota.
      change (selected_add archived []) with [archived].
      assert (Hadd : ∀ bucket selected,
                archived ∈ selected -> archived ∈ selected_add bucket selected).
      { intros bucket selected Hsel. unfold selected_add.
        case_bool_decide; [done |]. apply elem_of_app. by left. }
      assert (Hhere : archived ∈ [archived]) by constructor.
      destruct (falsy _); [done |].
      repeat match goal with
        | |- context [if ?b then _ else _] => destruct b
        end; auto. }
    by rewrite bool_decide_eq_true_2.
  - apply resolvePage_positive.
Qed.

End WithHost.

Lemma applyFilters_round_trip_witness :
  ∃ params st',
    applyFilters (Some [("page", "3")]) Samples.panel_state = (st', [RouterReplace params])
    ∧ archived ∈ parseStatusFilters (H := SampleHost.host) (Some params)
    ∧ selectedIds st' = [].
Proof.
  destruct (applyFilters_round_trip (H := SampleHost.host) (Some [("page", "3")]) Samples.panel_state)
    as [(params & st' & Heq & _ & Hsel & _ & _ & Hstatus & _) _].
  exists params, st'. split; [exact Heq |]. split; [| exact Hsel].
  apply Hstatus.
  - intros _ bucket Hbucket. by apply list_elem_of_singleton in Hbucket.
  - simpl. constructor.
Defined.

Lemma status_filters_round_trip_witness :
  parseStatusFilters (H := SampleHost.host)
    (Some (updateQueryParams (Some [("archived", "true")])
             {| patch_dueFilters := None; patch_statusFilters := Some [triage; active];
                patch_page := None |}))
  = [active; triage].
Proof.
  pose proof (status_filters_round_trip (H := SampleHost.host)
                (Some [("archived", "true")])
                {| patch_dueFilters := None; patch_statusFilters := Some [triage; active];
                   patch_page := None |} [triage; active] eq_refl) as [Heq _].
  exact Heq.
Defined.

Lemma request_archived_or_status_witness :
  query_status
    (queryParams (resolvePage (Some [("archived", "true"); ("status", "OPEN")]))
       (parseDueFilters (Some [("archived", "true"); ("status", "OPEN")]))
       (parseStatusFilters (H := SampleHost.host)
          (Some [("archived", "true"); ("status", "OPEN")])))
  = None.
Proof.
  apply (request_archived_or_status (H := SampleHost.host)
           (Some [("archived", "true"); ("status", "OPEN")])).
  reflexivity.
Defined.

End CodecFacts.

(** ** Page numbers through the URL *)

Module PageFacts.
Import Js RequirementsClient QueryFacts FilterFacts.

Lemma digit_of_pretty_N_char (d : N) :
  (d < 10)%N -> digit_of (pretty_N_char d) = Some (Z.of_N d) ∧ ws1 (pretty_N_char d) = false
  ∧ pretty_N_char d ≠ "-"%char ∧ pretty_N_char d ≠ "+"%char
  ∧ (∀ c, ws2 (pretty_N_char d) c = false)
  ∧ (∀ c c', ws3 (pretty_N_char d) c c' = false).
Proof.
  intros Hd.
  assert (d = 0 ∨ d = 1 ∨ d = 2 ∨ d = 3 ∨ d = 4 ∨ d = 5 ∨ d = 6 ∨ d = 7
          ∨ d = 8 ∨ d = 9)%N as Hcases by lia.
  repeat destruct Hcases as [-> | Hcases]; subst; done.
Qed.

(** Reading the decimal digits that [pretty] wrote. *)
Lemma read_digits_pretty (x : N) (s : string) (seen : bool) :
  read_digits (String.list_ascii_of_string (pretty_N_go x s)) seen 0
  = read_digits (String.list_ascii_of_string s) (seen || (0 <? x)%N) (Z.of_N x).
Proof.
  revert s seen. induction (N.lt_wf_0 x) as [x _ IH]. intros s seen.
  destruct (N.eq_dec x 0%N) as [-> | Hx].
  - rewrite pretty_N_go_0. simpl. by rewrite orb_false_r.
  - rewrite pretty_N_go_step by lia.
    rewrite IH by (apply N.div_lt; lia). simpl.
    destruct (digit_of_pretty_N_char (x mod 10)) as (-> & _);
      [apply N.mod_lt; lia |].
    replace (0 <? x)%N with true by (symmetry; apply N.ltb_lt; lia).
    rewrite orb_true_r. f_equal.
    rewrite (N.div_mod x 10) at 3 by done. lia.
Qed.

(** The first character of a positive numeral is a digit. *)
Lemma pretty_head (x : N) (s : string) :
  (0 < x)%N -> ∃ d r, (d < 10)%N ∧ pretty_N_go x s = String (pretty_N_char d) r.
Proof.
  revert s. induction (N.lt_wf_0 x) as [x _ IH]. intros s Hx.
  rewrite pretty_N_go_step by done.
  destruct (N.eq_dec (x / 10)%N 0%N) as [Hz | Hnz].
  - rewrite Hz, pretty_N_go_0. exists (x mod 10)%N, s.
    split; [apply N.mod_lt; lia | done].
  - apply IH; [apply N.div_lt; lia | by apply N.neq_0_lt_0].
Qed.

Lemma unsigned_body (body : list ascii) (c : ascii) (r : list ascii) :
  body = c :: r -> c ≠ "-"%char -> c ≠ "+"%char ->
  match body with
  | c :: r =>
      if bool_decide (c = "-"%char) then (true, r)
      else if bool_decide (c = "+"%char) then (false, r)
      else (false, body)
  | [] => (false, body)
  end = (false, body).
Proof. intros -> Hm Hp. by rewrite !bool_decide_eq_false_2. Qed.

Lemma mathInt_pretty (page : Z) : 0 < page -> mathInt (pretty page) = Some page.
Proof.
  intros Hpage. destruct page as [| p | p]; try lia.
  change (pretty (Z.pos p)) with (pretty_N_go (N.pos p) "").
  destruct (pretty_head (N.pos p) "") as (d & r & Hd & Heq); [lia |].
  destruct (digit_of_pretty_N_char d Hd) as (Hdigit & Hws1 & Hm & Hp & Hws2 & Hws3).
  assert (Hbody :
    String.list_ascii_of_string (pretty_N_go (N.pos p) "")
    = pretty_N_char d :: String.list_ascii_of_string r) by (by rewrite Heq).
  assert (Hstrip :
    strip false (String.list_ascii_of_string (pretty_N_go (N.pos p) ""))
    = String.list_ascii_of_string (pretty_N_go (N.pos p) "")).
  { rewrite Hbody. simpl. rewrite Hws1.
    destruct (String.list_ascii_of_string r) as [| c2 [| c3 r3]];
      by rewrite ?Hws2, ?Hws3. }
  unfold mathInt. rewrite Hstrip.
  rewrite (unsigned_body _ _ _ Hbody Hm Hp).
  by rewrite read_digits_pretty.
Qed.

Lemma pretty_nonempty (page : Z) : 0 < page -> pretty page ≠ "".
Proof.
  intros Hpage Hempty. pose proof (mathInt_pretty page Hpage) as Hread.
  by rewrite Hempty in Hread.
Qed.

(** A decimal numeral is read as the Number nearest to it. *)
Lemma parseInt_pretty (page : Z) :
  0 < page -> parseInt (pretty page) = Some (nearest_double page).
Proof. intros Hpage. unfold parseInt. by rewrite mathInt_pretty. Qed.

(** Every integer up to [MAX_SAFE_INTEGER] in magnitude is a Number. *)
Lemma nearest_double_safe (n : Z) :
  Z.abs n <= MAX_SAFE_INTEGER -> nearest_double n = finite n.
Proof.
  unfold MAX_SAFE_INTEGER, nearest_double. intros Hn.
  assert (Hlog : Z.log2 (Z.abs n) < 53).
  { destruct (Z.eq_dec (Z.abs n) 0) as [-> | Hnz]; [done |].
    apply Z.log2_lt_pow2; [lia |]. change (2 ^ 53) with 9007199254740992. lia. }
  by replace (Z.max 0 (Z.log2 (Z.abs n) - 52)) with 0 by lia.
Qed.


(** The length of a numeral. *)
Lemma pretty_N_go_length (k : nat) (x : N) (s : string) :
  (x < 10 ^ N.of_nat k)%N ->
  (String.length (pretty_N_go x s) <= k + String.length s)%nat.
Proof.
  revert x s. induction k as [| k IH]; intros x s Hx.
  - assert (x = 0%N) as -> by (simpl in Hx; lia). rewrite pretty_N_go_0. lia.
  - destruct (N.eq_dec x 0%N) as [-> | Hnz]; [rewrite pretty_N_go_0; lia |].
    rewrite pretty_N_go_step by lia.
    etrans; [apply IH |].
    + rewrite Nat2N.inj_succ, N.pow_succ_r' in Hx.
      apply N.Div0.div_lt_upper_bound. lia.
    + simpl. lia.
Qed.

Lemma pretty_length (k : nat) (x : Z) :
  0 < x < 10 ^ Z.of_nat k -> (String.length (pretty x) <= k)%nat.
Proof.
  intros [Hpos Hx]. destruct x as [| p | p]; try lia.
  change (pretty (Z.pos p)) with (pretty_N_go (N.pos p) "").
  etrans; [apply (pretty_N_go_length k) | simpl; lia].
  apply N2Z.inj_lt. rewrite N2Z.inj_pow, nat_N_Z. simpl. lia.
Qed.

(** What [candidate] picks is one of the two multiples, and fits. *)
Lemma candidate_fits (x unit v : Z) :
  candidate x unit = Some v ->
  fits x v = true ∧ (v = x / unit * unit ∨ v = x / unit * unit + unit).
Proof.
  unfold candidate. cbv zeta.
  destruct (fits x (x / unit * unit)) eqn:Hlow,
           (fits x (x / unit * unit + unit)) eqn:Hhigh;
    repeat match goal with
      | |- context [if ?b then _ else _] => destruct b
      end;
    intros [= <-]; auto.
Qed.

(** The digits [String] writes for a Number [x] are read back as [x], and
    their value is at most the next multiple of [10 ^ j] above [x]. *)
Lemma shortest_fits (j : nat) (x : Z) :
  0 < x -> nearest_double x = finite x ->
  0 < shortest j x
  ∧ nearest_double (shortest j x) = finite x
  ∧ (shortest j x <= x
     ∨ ∃ i, (i <= j)%nat
            ∧ shortest j x = x / 10 ^ Z.of_nat i * 10 ^ Z.of_nat i + 10 ^ Z.of_nat i).
Proof.
  intros Hpos Hdouble. induction j as [| j IH].
  - simpl shortest. destruct (candidate x (10 ^ Z.of_nat 0)) as [v |] eqn:Hcand.
    + apply candidate_fits in Hcand as [[Hv Hread%bool_decide_eq_true]%andb_true_iff Hwhich].
      apply Z.ltb_lt in Hv. split; [done |]. split; [done |].
      destruct Hwhich as [-> | ->]; [left | right; exists 0%nat; by split].
      change (10 ^ Z.of_nat 0) with 1. Z.div_mod_to_equations. lia.
    + split; [done |]. split; [done |]. left. lia.
  - simpl shortest. destruct (candidate x (10 ^ Z.of_nat (S j))) as [v |] eqn:Hcand.
    + apply candidate_fits in Hcand as [[Hv Hread%bool_decide_eq_true]%andb_true_iff Hwhich].
      apply Z.ltb_lt in Hv. split; [done |]. split; [done |].
      destruct Hwhich as [-> | ->]; [left | right; exists (S j); by split].
      assert (0 < 10 ^ Z.of_nat (S j)) by (apply Z.pow_pos_nonneg; lia).
      Z.div_mod_to_equations. nia.
    + destruct IH as (Hv & Hread & Hwhich). split; [done |]. split; [done |].
      destruct Hwhich as [Hle | (i & Hi & Heq)]; [by left |].
      right. exists i. split; [lia | done].
Qed.

(** Below [10^21] the digits are written out. *)
Lemma Number_toString_digits (x : Z) :
  1 < x < 10 ^ 21 -> nearest_double x = finite x ->
  ∃ v, Number_toString x = pretty v ∧ 0 < v ∧ nearest_double v = finite x.
Proof.
  intros [Hlow Hhigh] Hdouble. unfold Number_toString.
  replace (x =? 0) with false by (symmetry; apply Z.eqb_neq; lia).
  replace (x <? 0) with false by (symmetry; apply Z.ltb_ge; lia).
  replace (Z.abs x) with x by lia.
  destruct (shortest_fits (String.length (pretty x)) x) as (Hv & Hread & Hwhich);
    [lia | done |].
  set (v := shortest (String.length (pretty x)) x) in *.
  exists v. split; [| done].
  assert (Hbelow : v < 10 ^ 21); [| by rewrite (proj2 (Z.ltb_lt _ _) Hbelow)].
  destruct Hwhich as [Hle | (i & Hi & Heq)]; [lia |].
  assert (Hdigits : (i <= 21)%nat).
  { etrans; [exact Hi |]. apply (pretty_length 21). simpl. lia. }
  assert (Hle : v <= 10 ^ 21).
  { rewrite Heq.
    assert (Hsplit : 10 ^ 21 = 10 ^ Z.of_nat (21 - i) * 10 ^ Z.of_nat i).
    { rewrite <- Z.pow_add_r by lia. f_equal. lia. }
    assert (Hunit : 0 < 10 ^ Z.of_nat i) by (apply Z.pow_pos_nonneg; lia).
    assert (Hquot : x / 10 ^ Z.of_nat i < 10 ^ Z.of_nat (21 - i)).
    { apply Z.div_lt_upper_bound; [done |]. lia. }
    rewrite Hsplit. nia. }
  destruct (Z.eq_dec v (10 ^ 21)) as [Hedge | Hne]; [| lia].
  rewrite Hedge in Hread. vm_compute in Hread.
  injection Hread as Hx. rewrite <- Hx in Hhigh. vm_compute in Hhigh. done.
Qed.

(** Pages survive the URL as long as [String] writes their digits out.
    After [updateQuery] with a page, the page resolved from the new query
    is 1 for a page of 1 or less, for which the [page] parameter is
    removed, and the page itself for a page that is a Number below
    [10^21]; every integer from 1 to [MAX_SAFE_INTEGER] is such a Number.
    The bound is needed: [10^21] is written ["1e+21"] and read back as
    page 1. *)
Theorem page_round_trip
    (searchParams : option URLSearchParams.t) (next : QueryPatch) (page : Z) :
  patch_page next = Some page ->
  (page <= 1 ∨ (nearest_double page = finite page ∧ page < 10 ^ 21) ->
   resolvePage (Some (updateQueryParams searchParams next)) = Z.max 1 page)
  ∧ (1 <= page <= MAX_SAFE_INTEGER -> nearest_double page = finite page)
  ∧ (page <= 1 ->
     URLSearchParams.get "page" (updateQueryParams searchParams next) = None)
  ∧ (page = 10 ^ 21 ->
     URLSearchParams.get "page" (updateQueryParams searchParams next) = Some "1e+21"
     ∧ resolvePage (Some (updateQueryParams searchParams next)) = 1).
Proof.
  intros Hpatch. split; [| split; [| split]].
  - intros Hpage.
    unfold resolvePage. simpl. rewrite updateQueryParams_page, Hpatch.
    destruct (Z.leb_spec page 1) as [Hle | Hgt]; simpl.
    { f_equal. lia. }
    destruct Hpage as [Hle | [Hdouble Hbound]]; [lia |].
    destruct (Number_toString_digits page) as (v & -> & Hv & Hread); [lia | done |].
    rewrite bool_decide_eq_false_2 by (by apply pretty_nonempty).
    rewrite parseInt_pretty by done. rewrite Hread. simpl.
    replace (page <? 1) with false by (symmetry; apply Z.ltb_ge; lia).
    f_equal. lia.
  - intros Hsafe. apply nearest_double_safe. lia.
  - intros Hle. rewrite updateQueryParams_page, Hpatch.
    by replace (page <=? 1) with true by (symmetry; apply Z.leb_le; lia).
  - intros ->. unfold resolvePage. simpl. rewrite updateQueryParams_page, Hpatch.
    by vm_compute.
Qed.

Lemma page_round_trip_witness :
  resolvePage
    (Some (updateQueryParams (Some [("page", "2"); ("due", "due7")])
             {| patch_dueFilters := None; patch_statusFilters := None;
                patch_page := Some 12 |})) = 12.
Proof.
  pose proof (page_round_trip (Some [("page", "2"); ("due", "due7")])
                {| patch_dueFilters := None; patch_statusFilters := None;
                   patch_page := Some 12 |} 12 eq_refl) as [Heq _].
  apply Heq. right. split; [reflexivity | by vm_compute].
Defined.

End PageFacts.

(** ** The page shown *)

Module DisplayedPage.
Import Js Dates RequirementsClient Mock QueryFacts FilterFacts CodecFacts PageFacts.



Section WithHost.
Context `{Js.Host}.



End WithHost.


End DisplayedPage.

(** ** The selection through every operation *)

Module SelectionInvariant.
Import Js RequirementsClient Controller SelectionFacts.

(** The selection names rows in triage of the mirror, each once. *)
Definition selection_inv (st : State) : Prop :=
  selection_ok st ∧ NoDup (selectedIds st).

Lemma NoDup_purgeSelection rows prev : NoDup prev -> NoDup (purgeSelection rows prev).
Proof. apply NoDup_filter. Qed.

Lemma inv_setRequirementRows rows st :
  NoDup (selectedIds st) -> selection_inv (setRequirementRows rows st).
Proof.
  intros Hnd. split; [apply setRequirementRows_ok |]. by apply NoDup_purgeSelection.
Qed.

(** Narrowing the selection keeps the invariant. *)
Lemma inv_narrow ids st :
  selection_inv st -> NoDup ids -> (∀ key, key ∈ ids -> key ∈ selectedIds st) ->
  selection_inv (setSelectedIds ids st).
Proof.
  intros [Hok _] Hnd Hsub. split; [| done].
  intros key Hkey. apply Hok. by apply Hsub.
Qed.

Lemma inv_filter (P : string -> Prop) `{∀ key, Decision (P key)} st :
  selection_inv st -> selection_inv (setSelectedIds (filter P (selectedIds st)) st).
Proof.
  intros Hinv. apply inv_narrow; [done | apply NoDup_filter, Hinv |].
  by intros key [_ ?]%list_elem_of_filter.
Qed.

Lemma inv_clear st : selection_inv st -> selection_inv (setSelectedIds [] st).
Proof.
  intros Hinv. apply inv_narrow; [done | constructor |].
  by intros key ?%elem_of_nil.
Qed.

Lemma inv_setCompletingId value st :
  selection_inv st -> selection_inv (setCompletingId value st).
Proof. by intros [? ?]. Qed.

Lemma inv_setPendingFilters due statuses open st :
  selection_inv st -> selection_inv (setPendingFilters due statuses open st).
Proof. by intros [? ?]. Qed.

Lemma inv_rows rows st : selection_inv st -> selection_inv (setRequirementRows rows st).
Proof. intros [_ Hnd]. by apply inv_setRequirementRows. Qed.

Lemma inv_refreshAndHydrate latest st :
  selection_inv st -> selection_inv (refreshAndHydrate latest st).
Proof. intros Hinv. destruct latest; [by apply inv_rows | done]. Qed.

(** The elements of a [Set] filled from a list. *)
Lemma elem_of_Set_add (x key : string) (elements : list string) :
  key ∈ Set_add x elements ↔ key ∈ elements ∨ key = x.
Proof.
  unfold Set_add. case_bool_decide as Hin.
  - split; [by left |]. by intros [? | ->].
  - rewrite elem_of_app, list_elem_of_singleton. done.
Qed.

Lemma NoDup_Set_add (x : string) (elements : list string) :
  NoDup elements -> NoDup (Set_add x elements).
Proof.
  intros Hnd. unfold Set_add. case_bool_decide as Hin; [done |].
  apply NoDup_app. split; [done |]. split; [| apply NoDup_singleton].
  intros key Hkey ->%list_elem_of_singleton. done.
Qed.

Lemma foldl_Set_add (ids acc : list string) :
  (∀ key, key ∈ foldl (λ acc key, Set_add key acc) acc ids ↔ key ∈ acc ∨ key ∈ ids)
  ∧ (NoDup acc -> NoDup (foldl (λ acc key, Set_add key acc) acc ids)).
Proof.
  revert acc. induction ids as [| x ids IH]; intros acc; simpl.
  - split; [| done]. intros key. rewrite elem_of_nil. tauto.
  - destruct (IH (Set_add x acc)) as [Hin Hnd]. split.
    + intros key. rewrite Hin, elem_of_Set_add, elem_of_cons. tauto.
    + intros Hacc. by apply Hnd, NoDup_Set_add.
Qed.

Lemma elem_of_triageIdsOnPage rows key :
  key ∈ triageIdsOnPage rows ↔ in_triage rows key.
Proof.
  unfold triageIdsOnPage, in_triage. rewrite list_elem_of_fmap. split.
  - intros (item & -> & [Hs Hin]%list_elem_of_filter). eauto.
  - intros (item & Hin & <- & Hs). exists item. split; [done |].
    by apply list_elem_of_filter.
Qed.

Lemma inv_toggleSelection requirement checked st :
  requirement ∈ requirementRows st ->
  selection_inv st -> selection_inv (toggleSelection requirement checked st).
Proof.
  intros Hrow Hinv. unfold toggleSelection, strict_eq.
  destruct (bool_decide_reflect (status requirement = Some "PENDING_REVIEW"))
    as [Hs | Hs]; simpl; [| done].
  destruct checked; [| by apply inv_filter].
  case_bool_decide as Hin.
  - destruct st. exact Hinv.
  - destruct Hinv as [Hok Hnd]. split.
    + intros key [Hkey | ->%list_elem_of_singleton]%elem_of_app; [by apply Hok |].
      by exists requirement.
    + simpl. apply NoDup_app. split; [done |]. split; [| apply NoDup_singleton].
      intros key Hkey ->%list_elem_of_singleton. done.
Qed.

Lemma inv_toggleSelectAll checked st :
  selection_inv st -> selection_inv (toggleSelectAll checked st).
Proof.
  intros Hinv. unfold toggleSelectAll.
  case_bool_decide as Hids; [destruct st; exact Hinv |].
  destruct checked; [| by apply inv_filter].
  destruct Hinv as [Hok Hnd].
  destruct (foldl_Set_add (selectedIds st) []) as [Hin1 Hnd1].
  destruct (foldl_Set_add (triageIdsOnPage (requirementRows st))
              (foldl (λ acc key, Set_add key acc) [] (selectedIds st))) as [Hin2 Hnd2].
  split.
  - intros key Hkey. simpl in Hkey. apply Hin2 in Hkey as [Hkey | Hkey].
    + apply Hin1 in Hkey as [Hkey%elem_of_nil | Hkey]; [done | by apply Hok].
    + by apply elem_of_triageIdsOnPage.
  - simpl. apply Hnd2, Hnd1. constructor.
Qed.

Lemma purge_without_triage rows prev :
  ¬ Exists (λ item, status item = Some "PENDING_REVIEW") rows ->
  purgeSelection rows prev = [].
Proof.
  intros Hnone. unfold purgeSelection.
  induction prev as [| key prev IH]; [done |].
  rewrite filter_cons_False; [done |].
  intros (item & Hin & _ & Hs)%Exists_exists. apply Hnone, Exists_exists. eauto.
Qed.

Lemma inv_clearHiddenSelection statuses st :
  selection_inv st -> selection_inv (clearHiddenSelection statuses st).
Proof.
  intros Hinv. unfold clearHiddenSelection.
  destruct (_ && _); [by apply inv_clear | done].
Qed.

Create HintDb selection discriminated.
#[local] Hint Resolve inv_rows inv_filter inv_clear inv_setCompletingId
  inv_setPendingFilters inv_refreshAndHydrate inv_toggleSelection
  inv_toggleSelectAll inv_clearHiddenSelection : selection.

Ltac handler_cases :=
  repeat match goal with
    | |- context [match ?x with _ => _ end] => destruct x
    end;
  simpl; eauto 10 with selection.

Lemma inv_step st st' : step st st' -> selection_inv st -> selection_inv st'.
Proof.
  intros Hstep Hinv. destruct Hstep; simpl.
  - eauto with selection.
  - eauto with selection.
  - unfold applyFilters. simpl. eauto with selection.
  - unfold clearFilters. simpl. eauto with selection.
  - eauto with selection.
  - unfold handleComplete. handler_cases.
  - eauto with selection.
  - eauto with selection.
  - unfold dismissRequirementsList. handler_cases.
  - unfold archiveRequirement. handler_cases.
  - unfold handleTriageSubmit. handler_cases.
  - eauto with selection.
  - eauto with selection.
Qed.

(** In every state the controller can reach from its initial state,
    whatever the users, dialogs and server answer, each selected id is
    selected once and has a row in the mirror whose raw status is
    [PENDING_REVIEW]. *)
Theorem selection_invariant
    (initialRequirements : option RequirementsResponse)
    (due : list DueFilter) (statuses : list StatusFilter) (st : State) :
  rtc step (initial initialRequirements due statuses) st ->
  selection_ok st ∧ NoDup (selectedIds st).
Proof.
  intros Hreach.
  assert (Hinit : selection_inv (initial initialRequirements due statuses)).
  { split; [| constructor]. by intros key ?%elem_of_nil. }
  induction Hreach as [| st1 st2 st3 Hstep _ IH]; [done |].
  apply IH. by eapply inv_step.
Qed.

Import Samples.

Lemma selection_invariant_witness :
  selection_ok
    (toggleSelection (requirement "r3" (Some "PENDING_REVIEW") None None) true
       (setRequirementRows (requirementRows page_state) (initial None [] [])))
  ∧ NoDup
      (selectedIds
         (toggleSelection (requirement "r3" (Some "PENDING_REVIEW") None None) true
            (setRequirementRows (requirementRows page_state) (initial None [] [])))).
Proof.
  apply (selection_invariant None [] []).
  eapply rtc_l; [apply (step_hydrate _ (requirementRows page_state)) |].
  eapply rtc_l; [| apply rtc_refl].
  apply step_toggleSelection. simpl. repeat constructor.
Defined.

(** [toggleSelection] ignores a row that is not in triage; for a row in
    triage, checking adds its id to the selection (once) and unchecking
    removes it, and no other id is added or removed. The mirror is not
    touched. *)
Theorem toggleSelection_membership
    (requirement : Requirement) (checked : bool) (st : State) (key : string) :
  (status requirement ≠ Some "PENDING_REVIEW" ->
   toggleSelection requirement checked st = st)
  ∧ (status requirement = Some "PENDING_REVIEW" ->
     (key ∈ selectedIds (toggleSelection requirement true st)
      ↔ key ∈ selectedIds st ∨ key = id requirement)
     ∧ (key ∈ selectedIds (toggleSelection requirement false st)
        ↔ key ∈ selectedIds st ∧ key ≠ id requirement)
     ∧ toggleSelection requirement true (toggleSelection requirement true st)
       = toggleSelection requirement true st)
  ∧ requirementRows (toggleSelection requirement checked st) = requirementRows st.
Proof.
  unfold toggleSelection, strict_eq. split; [| split].
  - intros Hs. by rewrite bool_decide_eq_false_2.
  - intros Hs. rewrite bool_decide_eq_true_2 by done. simpl.
    split; [| split].
    + case_bool_decide as Hin.
      * split; [by left |]. by intros [? | ->].
      * by rewrite elem_of_app, list_elem_of_singleton.
    + rewrite list_elem_of_filter. tauto.
    + destruct (bool_decide_reflect (id requirement ∈ selectedIds st)) as [Hin | Hin];
        simpl.
      * by rewrite (bool_decide_eq_true_2 _ Hin).
      * assert (Hnow : id requirement ∈ selectedIds st ++ [id requirement]).
        { apply elem_of_app. right. by apply list_elem_of_singleton. }
        by rewrite (bool_decide_eq_true_2 _ Hnow).
  - by destruct (negb _).
Qed.

Lemma toggleSelection_membership_witness :
  "r3" ∈ selectedIds
           (toggleSelection (requirement "r3" (Some "PENDING_REVIEW") None None) true
              page_state)
  ∧ toggleSelection (requirement "r2" (Some "OPEN") None None) true page_state
    = page_state.
Proof.
  pose proof (toggleSelection_membership
                (requirement "r3" (Some "PENDING_REVIEW") None None) true page_state "r3")
    as (_ & Hon & _).
  pose proof (toggleSelection_membership
                (requirement "r2" (Some "OPEN") None None) true page_state "r2")
    as (Hoff & _).
  split.
  - apply Hon; [done | by right].
  - by apply Hoff.
Defined.

(** [toggleSelectAll] acts on the rows in triage of the loaded page only:
    checking adds exactly their ids to the selection, unchecking removes
    exactly their ids, and a page without such rows leaves the selection
    as it is. After checking, the header checkbox is checked; after
    unchecking, it is neither checked nor indeterminate. *)
Theorem toggleSelectAll_membership (st : State) (key : string) :
  (key ∈ selectedIds (toggleSelectAll true st)
   ↔ key ∈ selectedIds st ∨ in_triage (requirementRows st) key)
  ∧ (key ∈ selectedIds (toggleSelectAll false st)
     ↔ key ∈ selectedIds st ∧ ¬ in_triage (requirementRows st) key)
  ∧ (triageIdsOnPage (requirementRows st) = [] ->
     ∀ checked, selectedIds (toggleSelectAll checked st) = selectedIds st)
  ∧ (triageIdsOnPage (requirementRows st) ≠ [] ->
     headerChecked (selectAllState (toggleSelectAll true st)) = true
     ∧ headerChecked (selectAllState (toggleSelectAll false st)) = false
     ∧ headerIndeterminate (selectAllState (toggleSelectAll false st)) = false).
Proof.
  unfold toggleSelectAll.
  destruct (foldl_Set_add (selectedIds st) []) as [Hin1 _].
  destruct (foldl_Set_add (triageIdsOnPage (requirementRows st))
              (foldl (λ acc key, Set_add key acc) [] (selectedIds st))) as [Hin2 _].
  split; [| split; [| split]].
  - simpl. case_bool_decide as Hids.
    + split; [by left |]. intros [? | Ht]; [done |].
      apply elem_of_triageIdsOnPage in Ht. rewrite Hids in Ht.
      by apply elem_of_nil in Ht.
    + rewrite Hin2, Hin1, elem_of_nil, elem_of_triageIdsOnPage. tauto.
  - simpl. case_bool_decide as Hids.
    + split; [| by intros [? _]]. intros Hkey. split; [done |].
      intros Ht. apply elem_of_triageIdsOnPage in Ht. rewrite Hids in Ht.
      by apply elem_of_nil in Ht.
    + rewrite list_elem_of_filter, elem_of_triageIdsOnPage. tauto.
  - intros Hids checked. simpl. by rewrite bool_decide_eq_true_2.
  - intros Hids. rewrite (bool_decide_eq_false_2 _ Hids).
    unfold selectAllState, headerChecked, headerIndeterminate. simpl.
    rewrite (bool_decide_eq_false_2 _ Hids). simpl.
    split; [| split].
    + apply bool_decide_eq_true_2, Forall_forall. intros k Hk.
      apply Hin2. by right.
    + apply bool_decide_eq_false_2. intros Hall.
      destruct (triageIdsOnPage (requirementRows st)) as [| k ks] eqn:Hks; [done |].
      apply Forall_cons in Hall as [Hk _].
      apply list_elem_of_filter in Hk as [Hk _]. apply Hk. constructor.
    + apply andb_false_iff. right. apply bool_decide_eq_false_2.
      intros (k & Hk & [Hnot _]%list_elem_of_filter)%Exists_exists. done.
Qed.

Lemma toggleSelectAll_membership_witness :
  headerChecked (selectAllState (toggleSelectAll true page_state)) = true
  ∧ selectedIds (toggleSelectAll false page_state) = [].
Proof.
  pose proof (toggleSelectAll_membership page_state "r1") as (_ & _ & _ & Hheader).
  split.
  - by apply Hheader.
  - reflexivity.
Defined.

(** Once the selection has been purged against the rows, the effect that
    empties the selection when the selection column is hidden has nothing
    left to do: a hidden column means no row in triage, hence an empty
    selection already. *)
Theorem clearHiddenSelection_after_purge
    (statuses : list StatusFilter) (rows : list Requirement) (st : State) :
  clearHiddenSelection statuses (setRequirementRows rows st) = setRequirementRows rows st
  ∧ (showSelectionColumn statuses rows = false ->
     selectedIds (setRequirementRows rows st) = []).
Proof.
  assert (Hhidden : showSelectionColumn statuses rows = false ->
                    selectedIds (setRequirementRows rows st) = []).
  { unfold showSelectionColumn. intros [_ Hnone]%orb_false_iff.
    apply bool_decide_eq_false in Hnone. simpl. by apply purge_without_triage. }
  split; [| done].
  unfold clearHiddenSelection.
  change (requirementRows (setRequirementRows rows st)) with rows.
  destruct (showSelectionColumn statuses rows) eqn:Hshow; [done |].
  by rewrite (Hhidden eq_refl).
Qed.

Lemma clearHiddenSelection_after_purge_witness :
  selectedIds
    (setRequirementRows [requirement "r2" (Some "OPEN") None None] page_state) = [].
Proof.
  by apply (clearHiddenSelection_after_purge [active]
              [requirement "r2" (Some "OPEN") None None] page_state).
Defined.

End SelectionInvariant.

(** ** The mutation workflows *)

Module WorkflowFacts.
Import Js RequirementsClient TriagePanel SelectionFacts ArchiveFacts.

(** The network calls among the effects. *)
Definition network_calls (effects : list Effect) : list Effect :=
  filter (λ effect, is_network effect = true) effects.

(** An upsert replaces rows in place: the mirror keeps its ids, in their
    order, so it neither grows nor shrinks; every row is the updated row
    or an old row with another id; and a mirror without a row of the
    updated id is left as it is. *)
Theorem upsert_in_place (updated : Requirement) (rows : list Requirement) :
  id <$> upsert updated rows = id <$> rows
  ∧ length (upsert updated rows) = length rows
  ∧ (∀ item, item ∈ upsert updated rows ->
       (item = updated ∧ ∃ old, old ∈ rows ∧ id old = id updated)
       ∨ (item ∈ rows ∧ id item ≠ id updated))
  ∧ ((∀ row, row ∈ rows -> id row ≠ id updated) -> upsert updated rows = rows).
Proof.
  unfold upsert. split; [| split; [| split]].
  - rewrite <- list_fmap_compose. apply list_fmap_ext. intros i row _. simpl.
    by case_bool_decide.
  - by rewrite length_fmap.
  - intros item (row & -> & Hrow)%list_elem_of_fmap.
    case_bool_decide as Hid; [left | right]; eauto.
  - intros Hfresh. rewrite <- (list_fmap_id rows) at 2.
    apply list_fmap_ext. intros i row Hrow. simpl.
    rewrite bool_decide_eq_false_2; [done |].
    apply Hfresh. by eapply list_elem_of_lookup_2.
Qed.

Lemma upsert_in_place_witness :
  upsert (Samples.requirement "r9" (Some "DONE") None None)
    (requirementRows Samples.page_state)
  = requirementRows Samples.page_state.
Proof.
  apply (upsert_in_place (Samples.requirement "r9" (Some "DONE") None None)
           (requirementRows Samples.page_state)).
  intros row Hrow. simpl in Hrow.
  rewrite !elem_of_cons, elem_of_nil in Hrow.
  destruct Hrow as [-> | [-> | [-> | []]]]; done.
Defined.

(** Completing a record. A record that is [DONE] or [PENDING_REVIEW] is
    left alone: no network call, no toast, no change. Otherwise the one
    mutation call is [POST /requirements/{id}/complete] with the acting
    user's address; the completing marker is cleared at the end on every
    path; if the call fails the mirror and the selection are as before
    and the toast carries the server's message when there is one; if it
    succeeds the mirror holds the rows of the revalidation, or the
    upserted rows when the revalidation brings none. *)
Theorem handleComplete_outcomes
    (email : option string) (requirement : Requirement)
    (response : Settled Requirement) (latest : Settled (option (list Requirement)))
    (st : State) :
  let '(st', effects) := handleComplete email requirement response latest st in
  (status requirement = Some "DONE" ∨ status requirement = Some "PENDING_REVIEW" ->
   st' = st ∧ effects = [])
  ∧ (status requirement ≠ Some "DONE" -> status requirement ≠ Some "PENDING_REVIEW" ->
     completingId st' = None
     ∧ head effects
       = Some (Post ("/requirements/" +:+ id requirement +:+ "/complete")
                 (CompleteBody email))
     ∧ (∀ failure, response = Failed failure ->
          requirementRows st' = requirementRows st
          ∧ selectedIds st' = selectedIds st
          ∧ effects
            = [Post ("/requirements/" +:+ id requirement +:+ "/complete")
                 (CompleteBody email);
               Toast error (failure_message failure "requirements.completeError")])
     ∧ (∀ updated, response = Fulfilled updated ->
          requirementRows st'
          = match latest with
            | Fulfilled (Some items) => items
            | _ => upsert updated (requirementRows st)
            end)).
Proof.
  unfold handleComplete, strict_eq.
  destruct (bool_decide_reflect (status requirement = Some "DONE")) as [Hd | Hd].
  { simpl. split; [by intros _ | by intros ?]. }
  destruct (bool_decide_reflect (status requirement = Some "PENDING_REVIEW")) as [Hp | Hp].
  { simpl. split; [by intros _ | by intros ? ?]. }
  simpl.
  destruct response as [updated | failure].
  - destruct latest as [[items |] | failure];
      (split; [by intros [? | ?] |]); intros _ _;
      (split; [done |]); (split; [done |]);
      (split; [by intros ? [=] |]); by intros ? [= <-].
  - split; [by intros [? | ?] |]. intros _ _.
    split; [done |]. split; [done |].
    split; [by intros ? [= <-] | by intros ? [=]].
Qed.

Lemma handleComplete_outcomes_witness :
  handleComplete (Some "lead@example.com")
    (Samples.requirement "r1" (Some "PENDING_REVIEW") (Some "2026-11-01") None)
    (Failed OtherFailure) (Failed OtherFailure) Samples.page_state
  = (Samples.page_state, []).
Proof.
  pose proof (handleComplete_outcomes (Some "lead@example.com")
                (Samples.requirement "r1" (Some "PENDING_REVIEW") (Some "2026-11-01") None)
                (Failed OtherFailure) (Failed OtherFailure) Samples.page_state) as Hout.
  destruct (handleComplete _ _ _ _ _) as [st' effects].
  destruct Hout as [Hnoop _]. destruct Hnoop as [-> ->]; [by right | done].
Defined.

Lemma purge_excludes rows prev key : key ∉ prev -> key ∉ purgeSelection rows prev.
Proof. intros Hnot [Hin _]%elem_of_purgeSelection. done. Qed.

(** The archive call of a record and its reason. *)
Definition archive_call (reason : Message) (requirement : Requirement) : Effect :=
  Post ("/requirements/" +:+ id requirement +:+ "/archive") (ArchiveBody reason).

(** Archiving one record, once the reason is given. A cancelled prompt
    does nothing. With a reason, the one mutation call is
    [POST /requirements/{id}/archive] with the trimmed reason; if it fails,
    the state is as before and one error toast is shown; if it succeeds,
    the record is no longer selected and the mirror holds the rows of the
    revalidation, or the upserted rows when it brings none. *)
Theorem archiveRequirement_outcomes
    (requirement : Requirement) (reasonInput : string)
    (response : Settled Requirement) (latest : Settled (option (list Requirement)))
    (st : State) :
  archive_state requirement ≠ Some "archived" ->
  status requirement ≠ Some "ARCHIVED" ->
  trim reasonInput ≠ "" ->
  archiveRequirement requirement None response latest st = (st, [])
  ∧ let '(st', effects) :=
      archiveRequirement requirement (Some reasonInput) response latest st in
    head effects = Some (archive_call (Literal (trim reasonInput)) requirement)
    ∧ (∀ failure, response = Failed failure ->
         st' = st
         ∧ effects
           = [archive_call (Literal (trim reasonInput)) requirement;
              Toast error (failure_message failure "requirements.detail.archiveError")])
    ∧ (∀ updated, response = Fulfilled updated ->
         (id requirement ∉ selectedIds st')
         ∧ requirementRows st'
           = match latest with
             | Fulfilled (Some items) => items
             | _ => upsert updated (requirementRows st)
             end).
Proof.
  intros Ha Hs Hreason. unfold archiveRequirement, strict_eq, archive_call.
  rewrite !bool_decide_eq_false_2 by done. simpl.
  split; [done |].
  assert (Hgone : ∀ rows prev,
            id requirement ∉ filter (λ key, key ≠ id requirement) (purgeSelection rows prev)).
  { intros rows prev [Hne _]%list_elem_of_filter. done. }
  destruct response as [updated | failure].
  - destruct latest as [[items |] | failure];
      (split; [done |]); (split; [by intros ? [=] |]);
      intros ? [= <-]; (split; [| done]); simpl;
      try apply purge_excludes; apply Hgone.
  - split; [done |]. split; [by intros ? [= <-] | by intros ? [=]].
Qed.

Lemma archiveRequirement_outcomes_witness :
  archiveRequirement (Samples.requirement "r2" (Some "OPEN") None None)
    (Some " obsolete ") (Failed (ApiError 409 "Locked")) (Failed OtherFailure)
    Samples.page_state
  = (Samples.page_state,
     [archive_call (Literal "obsolete") (Samples.requirement "r2" (Some "OPEN") None None);
      Toast error (Literal "Locked")]).
Proof.
  pose proof (archiveRequirement_outcomes
                (Samples.requirement "r2" (Some "OPEN") None None) " obsolete "
                (Failed (ApiError 409 "Locked")) (Failed OtherFailure)
                Samples.page_state ltac:(done) ltac:(done) ltac:(done)) as [_ Hout].
  destruct (archiveRequirement _ _ _ _ _) as [st' effects].
  destruct Hout as (_ & Hfail & _).
  destruct (Hfail _ eq_refl) as [-> ->]. reflexivity.
Defined.

(** The reason a dismissal goes on with, or [None] when it stops at a
    dialog. *)
Definition dismissal_reason (confirm : bool) (providedReason : option Message)
    (confirmed : bool) (input : option string) : option Message :=
  if confirm then
    if confirmed then
      match input with
      | Some text => if bool_decide (trim text = "") then None else Some (Literal (trim text))
      | None => None
      end
    else None
  else Some (default (Translated "triage.dismissReason") providedReason).

(** A dismissal that a dialog stops. *)
Lemma dismiss_stopped requirements confirm providedReason confirmed input batch latest st :
  dismissal_reason confirm providedReason confirmed input = None ->
  dismissRequirementsList requirements confirm providedReason confirmed input
    batch latest st
  = (st,
     if bool_decide (requirements = []) then []
     else if confirm && confirmed && bool_decide (input ≠ None)
     then [Toast error (Translated "requirements.detail.archiveReasonRequired")]
     else []).
Proof.
  unfold dismissRequirementsList, dismissal_reason.
  case_bool_decide; [done |].
  destruct confirm; [| done]. destruct confirmed; [| done].
  destruct input as [text |]; [| done]. simpl.
  by case_bool_decide.
Qed.

(** A dismissal that goes on is the dismissal without dialogs, with the
    reason that was decided. *)
Lemma dismiss_with_reason requirements confirm providedReason confirmed input reason
    batch latest st :
  dismissal_reason confirm providedReason confirmed input = Some reason ->
  dismissRequirementsList requirements confirm providedReason confirmed input
    batch latest st
  = dismissRequirementsList requirements false (Some reason) true None batch latest st.
Proof.
  unfold dismissRequirementsList, dismissal_reason.
  case_bool_decide; [done |].
  destruct confirm; [| by intros [= <-]].
  destruct confirmed; [| done]. destruct input as [text |]; [| done]. simpl.
  case_bool_decide; [done |]. by intros [= <-].
Qed.

Lemma network_calls_archive requirements reason rest :
  network_calls ((archive_call reason <$> requirements) ++ rest)
  = (archive_call reason <$> requirements) ++ network_calls rest.
Proof.
  unfold network_calls. rewrite filter_app. f_equal.
  induction requirements as [| r rs IH]; [done |].
  rewrite fmap_cons, filter_cons_True by done. by rewrite IH.
Qed.

Lemma dismiss_core requirements reason batch latest st :
  let '(st', effects) :=
    dismissRequirementsList requirements false (Some reason) true None batch latest st in
  (requirements = [] -> st' = st ∧ effects = [])
  ∧ take (length requirements) effects = archive_call reason <$> requirements
  ∧ (requirements ≠ [] ->
     network_calls effects
     = (archive_call reason <$> requirements)
       ++ match batch with Fulfilled _ => [Revalidate] | Failed _ => [] end)
  ∧ (∀ failure, batch = Failed failure -> st' = st)
  ∧ (∀ done, batch = Fulfilled done -> requirements ≠ [] ->
       ∀ requirement, requirement ∈ requirements -> id requirement ∉ selectedIds st').
Proof.
  unfold dismissRequirementsList.
  destruct (bool_decide_reflect (requirements = [])) as [-> | Hne].
  { split; [done |]. split; [done |]. split; [by intros ? |]. split; [done |].
    by intros ? _ ?. }
  assert (Hgone : ∀ (prev : list string) (requirement : Requirement),
    requirement ∈ requirements ->
    id requirement
    ∉ filter (λ key, ¬ Exists (λ req, id req = key) requirements) prev).
  { intros prev requirement Hin [Hnot _]%list_elem_of_filter.
    apply Hnot, Exists_exists. eauto. }
  simpl.
  destruct batch as [[] | failure]; [destruct latest as [[items |] | failure] |];
    change (λ requirement : Requirement,
              Post ("/requirements/" +:+ id requirement +:+ "/archive")
                (ArchiveBody reason))
      with (archive_call reason);
    rewrite network_calls_archive, take_app_length' by (by rewrite length_fmap);
    (split; [done |]); (split; [done |]); (split; [done |]).
  - split; [by intros ? [=] |]. intros _ _ _ requirement Hin. simpl.
    apply purge_excludes. by apply Hgone.
  - split; [by intros ? [=] |]. intros _ _ _ requirement Hin. by apply Hgone.
  - split; [by intros ? [=] |]. intros _ _ _ requirement Hin. by apply Hgone.
  - split; [done |]. by intros ? [=].
Qed.

(** Dismissing a list of records. If the list is empty or a dialog stops
    the dismissal, nothing is sent and the state stays. Otherwise one
    archive call per record is sent, in the order of the list and all
    with the same reason; if the batch fails the state stays and no
    revalidation is asked; if it succeeds none of the dismissed records
    is selected any more. *)
Theorem dismissRequirementsList_outcomes
    (requirements : list Requirement) (confirm : bool) (providedReason : option Message)
    (confirmed : bool) (input : option string)
    (batch : Settled unit) (latest : Settled (option (list Requirement))) (st : State) :
  let '(st', effects) :=
    dismissRequirementsList requirements confirm providedReason confirmed input
      batch latest st in
  (requirements = [] -> st' = st ∧ effects = [])
  ∧ match dismissal_reason confirm providedReason confirmed input with
    | None => st' = st ∧ offline effects
    | Some reason =>
        take (length requirements) effects = archive_call reason <$> requirements
        ∧ (requirements ≠ [] ->
           network_calls effects
           = (archive_call reason <$> requirements)
             ++ match batch with Fulfilled _ => [Revalidate] | Failed _ => [] end)
        ∧ (∀ failure, batch = Failed failure -> st' = st)
        ∧ (∀ done, batch = Fulfilled done -> requirements ≠ [] ->
             ∀ requirement, requirement ∈ requirements ->
               id requirement ∉ selectedIds st')
    end.
Proof.
  destruct (dismissal_reason confirm providedReason confirmed input) as [reason |] eqn:Hreason.
  - rewrite (dismiss_with_reason _ _ _ _ _ _ _ _ _ Hreason).
    apply dismiss_core.
  - rewrite (dismiss_stopped _ _ _ _ _ _ _ _ Hreason).
    destruct (bool_decide_reflect (requirements = [])) as [Hnil | Hne]; simpl.
    + split; [done |]. split; [done | constructor].
    + split; [by intros ? |]. split; [done |].
      destruct (_ && _ && _); by repeat constructor.
Qed.

Lemma dismissRequirementsList_outcomes_witness :
  network_calls
    (dismissRequirementsList (requirementRows Samples.page_state) true None true
       (Some " duplicates ") (Failed OtherFailure) (Failed OtherFailure)
       Samples.page_state).2
  = archive_call (Literal "duplicates") <$> requirementRows Samples.page_state.
Proof.
  pose proof (dismissRequirementsList_outcomes (requirementRows Samples.page_state)
                true None true (Some " duplicates ") (Failed OtherFailure)
                (Failed OtherFailure) Samples.page_state) as Hout.
  destruct (dismissRequirementsList _ _ _ _ _ _ _ _) as [st' effects].
  destruct Hout as (_ & _ & Hnet & _). simpl.
  rewrite Hnet by done. by rewrite app_nil_r.
Defined.

(** The dismissal of the triage panel: declining the confirmation or
    cancelling the prompt does nothing; otherwise, with a reason that is
    not blank, every selected record gets an archive call that carries
    the trimmed reason, and no dialog of the controller is involved. *)
Theorem handleDismissClick_forwards_reason
    (selected : list Requirement) (confirmed : bool) (reasonInput : option string)
    (batch : Settled unit) (latest : Settled (option (list Requirement))) (st : State) :
  (confirmed = false ∨ reasonInput = None ->
   handleDismissClick selected confirmed reasonInput batch latest st = (st, []))
  ∧ (∀ text, confirmed = true -> reasonInput = Some text -> trim text ≠ "" ->
       handleDismissClick selected confirmed reasonInput batch latest st
       = dismissRequirementsList selected false (Some (Literal (trim text))) true None
           batch latest st
       ∧ take (length selected)
           (handleDismissClick selected confirmed reasonInput batch latest st).2
         = archive_call (Literal (trim text)) <$> selected).
Proof.
  split.
  - unfold handleDismissClick. intros [-> | ->]; [done |]. by destruct confirmed.
  - intros text -> -> Htext.
    assert (Heq :
      handleDismissClick selected true (Some text) batch latest st
      = dismissRequirementsList selected false (Some (Literal (trim text))) true None
          batch latest st).
    { unfold handleDismissClick. simpl. by rewrite bool_decide_eq_false_2. }
    split; [exact Heq |]. rewrite Heq.
    pose proof (dismiss_core selected (Literal (trim text)) batch latest st) as Hcore.
    destruct (dismissRequirementsList _ _ _ _ _ _ _ _) as [st' effects].
    by destruct Hcore as (_ & Htake & _).
Qed.

Lemma handleDismissClick_forwards_reason_witness :
  take 3
    (handleDismissClick (requirementRows Samples.page_state) true (Some " n/a ")
       (Fulfilled ()) (Fulfilled None) Samples.page_state).2
  = archive_call (Literal "n/a") <$> requirementRows Samples.page_state.
Proof.
  pose proof (handleDismissClick_forwards_reason (requirementRows Samples.page_state)
                true (Some " n/a ") (Fulfilled ()) (Fulfilled None) Samples.page_state)
    as [_ Hgo].
  destruct (Hgo " n/a " eq_refl eq_refl ltac:(done)) as [_ Htake].
  exact Htake.
Defined.

(** A mutation call among the effects. *)
Definition is_post (effect : Effect) : bool :=
  match effect with
  | Post _ _ => true
  | _ => false
  end.

(** Saving a bulk triage sends exactly one request, the payload to
    [POST /requirements/triage/bulk]. If it fails, the state (mirror and
    selection) stays and the toast is the generic one; if it succeeds, the
    selection is empty afterwards, also when the revalidation fails. *)
Theorem handleTriageSubmit_outcomes
    (payload : TriagePayload) (response : Settled unit)
    (latest : Settled (option (list Requirement))) (st : State) :
  let '(st', effects) := handleTriageSubmit payload response latest st in
  head effects = Some (Post "/requirements/triage/bulk" (TriageBody payload))
  ∧ filter (λ effect, is_post effect = true) effects
    = [Post "/requirements/triage/bulk" (TriageBody payload)]
  ∧ (∀ failure, response = Failed failure ->
       st' = st ∧ Toast error (Translated "triage.error") ∈ effects)
  ∧ (∀ done, response = Fulfilled done -> selectedIds st' = []).
Proof.
  unfold handleTriageSubmit.
  destruct response as [[] | failure].
  - destruct latest as [[items |] | failure];
      (split; [done |]); (split; [done |]); (split; [by intros ? [=] |]);
      by intros ? _.
  - split; [done |]. split; [done |]. split; [| by intros ? [=]].
    intros ? _. split; [done |]. by repeat constructor.
Qed.

Lemma handleTriageSubmit_outcomes_witness :
  selectedIds
    (handleTriageSubmit
       {| requirement_ids := ["r1"]; payload_frequency := Some "ANNUAL";
          payload_anchor_type := None; payload_anchor_value := None;
          payload_due_date := None; payload_assignee := None;
          payload_status := Some "OPEN" |}
       (Fulfilled ()) (Failed OtherFailure) Samples.page_state).1 = [].
Proof.
  pose proof (handleTriageSubmit_outcomes
                {| requirement_ids := ["r1"]; payload_frequency := Some "ANNUAL";
                   payload_anchor_type := None; payload_anchor_value := None;
                   payload_due_date := None; payload_assignee := None;
                   payload_status := Some "OPEN" |}
                (Fulfilled ()) (Failed OtherFailure) Samples.page_state) as Hout.
  destruct (handleTriageSubmit _ _ _ _) as [st' effects].
  destruct Hout as (_ & _ & _ & Hclear). by apply (Hclear ()).
Defined.

End WorkflowFacts.

(** ** More on the triage panel *)

Module PanelFacts.
Import Js RequirementsClient TriagePanel ArchiveFacts TriageFacts WorkflowFacts.

Section WithHost.
Context `{Js.Host}.

(** The interval can be used: a number that is not NaN and above zero. *)
Definition interval_usable (form : FormState) : Prop :=
  ∃ x, intervalValue form = Some x
       ∧ falsy_number x || PrimFloat.is_nan x || PrimFloat.leb x 0 = false.

Lemma interval_check (form : FormState) :
  match intervalValue form with
  | Some x => falsy_number x || PrimFloat.is_nan x || PrimFloat.leb x 0
  | None => true
  end = false ↔ interval_usable form.
Proof.
  unfold interval_usable. destruct (intervalValue form) as [x |].
  - split; [by exists x | by intros (y & [= <-] & ?)].
  - split; [done | by intros (y & ? & _)].
Qed.

Ltac accepted frequency :=
  split; [done |]; exists frequency;
  split; [done |]; split; [done |]; split; [by auto |];
  first [done | by intros ?; congruence].

(** The form passes the checks of [handleSubmit] exactly when it has a
    status and a frequency, a due date unless the frequency is
    [BEFORE_EACH_USE] or [ONE_TIME], and, for a frequency that starts
    with [EVERY_N_], an interval that is a number above zero. Nothing
    else is checked: the interval need not be whole, and the values of
    the status, the frequency and the anchor type are not compared with
    the lists of the form. *)
Theorem validation_accepts (form : FormState) :
  validation form = None
  ↔ falsy (form_status form) = false
    ∧ ∃ frequency,
        form_frequency form = Some frequency ∧ frequency ≠ ""
        ∧ (frequency ∈ ["BEFORE_EACH_USE"; "ONE_TIME"]
           ∨ falsy (form_dueDate form) = false)
        ∧ (requiresInterval frequency = true -> interval_usable form).
Proof.
  unfold validation.
  destruct (falsy (form_status form)); [split; [done | by intros [? _]] |].
  destruct (form_frequency form) as [frequency |];
    [| split; [done | by intros (_ & ? & ? & _)]].
  simpl. destruct (bool_decide_reflect (frequency = "")) as [-> | Hne].
  { split; [done |]. by intros (_ & ? & [= <-] & ? & _). }
  pose proof (interval_check form) as Hcheck.
  destruct (match intervalValue form with Some _ => _ | None => _ end) eqn:Hmissing.
  - (* the interval cannot be used *)
    assert (Hunusable : ¬ interval_usable form) by (by intros ?%Hcheck).
    destruct (requiresInterval frequency) eqn:Hevery; simpl.
    + split.
      * by destruct (negb _ && falsy (form_dueDate form)).
      * intros (_ & f & [= <-] & _ & _ & Hint). by destruct Hunusable; apply Hint.
    + destruct (bool_decide_reflect (frequency ∈ ["BEFORE_EACH_USE"; "ONE_TIME"]))
        as [Hin | Hin]; simpl.
      * split; [| done]. intros _. accepted frequency.
      * destruct (falsy (form_dueDate form)) eqn:Hdue.
        -- split; [done |]. by intros (_ & f & [= <-] & _ & [? | ?] & _).
        -- split; [| done]. intros _. accepted frequency.
  - (* the interval can be used *)
    assert (Husable : interval_usable form) by (by apply Hcheck).
    rewrite andb_false_r.
    destruct (bool_decide_reflect (frequency ∈ ["BEFORE_EACH_USE"; "ONE_TIME"]))
      as [Hin | Hin]; simpl.
    + split; [| done]. intros _. accepted frequency.
    + destruct (falsy (form_dueDate form)) eqn:Hdue.
      * split; [done |]. by intros (_ & f & [= <-] & _ & [? | ?] & _).
      * split; [| done]. intros _. accepted frequency.
Qed.

(** A form that passes the checks has a status and a frequency. *)
Lemma validation_fields (form : FormState) :
  validation form = None ->
  falsy (form_status form) = false
  ∧ ∃ frequency, form_frequency form = Some frequency ∧ frequency ≠ "".
Proof.
  unfold validation. destruct (falsy (form_status form)); [done |].
  destruct (form_frequency form) as [frequency |]; [| done]. simpl.
  destruct (bool_decide_reflect (frequency = "")); [done |]. eauto.
Qed.

(** A date of the form that the payload needs cannot be read. *)
Definition date_unreadable (form : FormState) : Prop :=
  (truthy (form_anchorType form) ≠ None
   ∧ ∃ a, truthy (form_anchorDate form) = Some a ∧ Date_parse a = None)
  ∨ (∃ d, truthy (form_dueDate form) = Some d ∧ Date_parse d = None).

Lemma truthy_Some (value : option string) :
  falsy value = false -> truthy value = value.
Proof. intros Hv. unfold truthy. by rewrite Hv. Qed.

(** A form that passes the checks. If a date it needs cannot be read,
    [handleSubmit] throws while it builds the payload: nothing is sent, no
    toast is shown and the state stays. Otherwise the payload names the
    selected records in their order and carries the frequency and the
    status of the form, and for a frequency that does not start with
    [EVERY_N_] it has no [interval] entry, whatever the interval field
    holds. *)
Theorem handleSubmit_after_validation
    (selected : list Requirement) (form : FormState)
    (response : Settled unit) (latest : Settled (option (list Requirement)))
    (st : State) :
  validation form = None ->
  (date_unreadable form ->
   handleSubmit selected form = RangeError
   ∧ submit selected form response latest st = (st, []))
  ∧ (dates_readable form ->
     ∃ payload,
       handleSubmit selected form = Ready payload
       ∧ requirement_ids payload = id <$> selected
       ∧ payload_frequency payload = form_frequency form
       ∧ payload_status payload = form_status form
       ∧ (∀ frequency anchor,
            form_frequency form = Some frequency ->
            requiresInterval frequency = false ->
            payload_anchor_value payload = Some anchor ->
            anchor !! "interval" = None)).
Proof.
  intros Hvalid.
  destruct (validation_fields form Hvalid) as (Hstatus & frequency & Hfreq & Hne).
  split.
  - intros Hbad.
    assert (Hthrow : handleSubmit selected form = RangeError).
    { unfold handleSubmit. rewrite Hvalid.
      destruct Hbad as [(Htype & a & Ha & Hparse) | (d & Hd & Hparse)].
      - unfold anchorOfForm. destruct (truthy (form_anchorType form)); [| done].
        rewrite Ha. unfold isoOf. by rewrite Hparse.
      - destruct (anchorOfForm form); [| done].
        unfold dueOfForm. rewrite Hd. unfold isoOf. by rewrite Hparse. }
    split; [done |]. unfold submit. by rewrite Hthrow.
  - intros [Hanchor Hdue].
    assert (Hd : ∃ due, dueOfForm form = Some due).
    { unfold dueOfForm. destruct (truthy (form_dueDate form)) as [d |] eqn:Hd; [| eauto].
      destruct (Hdue d eq_refl) as [t Ht]. unfold isoOf. rewrite Ht. simpl. eauto. }
    assert (Ha : ∃ anchor_value,
              anchorOfForm form = Some anchor_value
              ∧ ∀ anchor, anchor_value = Some anchor -> anchor !! "interval" = None).
    { unfold anchorOfForm.
      destruct (truthy (form_anchorType form)) as [ty |] eqn:Hty;
        [| eexists; split; [done | by intros ? [=]]].
      destruct (truthy (form_anchorDate form)) as [a |] eqn:Hda;
        [| eexists; split; [done | by intros ? [= <-]]].
      destruct (Hanchor a ltac:(done) eq_refl) as [t Ht].
      unfold isoOf. rewrite Ht. simpl.
      eexists. split; [done |]. intros ? [= <-]. by rewrite lookup_singleton_ne. }
    destruct Hd as [due Hd]. destruct Ha as (anchor_value & Ha & Hplain).
    unfold handleSubmit. rewrite Hvalid, Ha, Hd.
    eexists. split; [done |]. simpl.
    split; [done |]. split; [by rewrite Hfreq |].
    split; [by apply truthy_Some |].
    intros f anchor Hf Hevery. rewrite Hfreq in Hf. injection Hf as <-.
    rewrite Hfreq. simpl. unfold anchorWithInterval. rewrite Hevery.
    destruct (intervalValue form); simpl; apply Hplain.
Qed.

End WithHost.

Lemma validation_accepts_witness :
  validation (H := SampleHost.host) (Samples.fortnightly (Some "2")) = None.
Proof.
  apply (proj2 (validation_accepts (H := SampleHost.host) (Samples.fortnightly (Some "2")))).
  split; [reflexivity |]. exists "EVERY_N_WEEKS".
  split; [reflexivity |]. split; [done |]. split; [by right |].
  intros _. eexists. split; reflexivity.
Defined.

Lemma handleSubmit_after_validation_witness :
  submit (H := SampleHost.host) [] 
    {| form_frequency := Some "ANNUAL"; form_anchorType := None;
       form_anchorDate := None; form_dueDate := Some "soon";
       form_assignee := None; form_interval := None; form_status := Some "OPEN" |}
    (Fulfilled ()) (Fulfilled None) Samples.page_state
  = (Samples.page_state, []).
Proof.
  apply (handleSubmit_after_validation (H := SampleHost.host) []
           {| form_frequency := Some "ANNUAL"; form_anchorType := None;
              form_anchorDate := None; form_dueDate := Some "soon";
              form_assignee := None; form_interval := None;
              form_status := Some "OPEN" |}
           (Fulfilled ()) (Fulfilled None) Samples.page_state eq_refl).
  right. by exists "soon".
Defined.

End PanelFacts.

(** ** The pagination buttons *)

Module PaginationFacts.
Import PaginationUi.

(** [goTo] only hands on pages from 1 to the page count. On a page within
    that range every enabled button moves by one page. On a page more
    than one past the page count, which the controller can show, the next
    button is disabled and the previous button, though enabled, does
    nothing. *)
Theorem pagination_buttons (page pageCount nextPage : Z) :
  (∀ target, goTo pageCount nextPage = Some target ->
     target = nextPage ∧ 1 <= target <= pageCount)
  ∧ (1 <= page <= pageCount ->
     (previousDisabled false page = false -> clickPrevious page pageCount = Some (page - 1))
     ∧ (nextDisabled false page pageCount = false ->
        clickNext page pageCount = Some (page + 1)))
  ∧ (1 <= pageCount -> pageCount + 1 < page ->
     nextDisabled false page pageCount = true
     ∧ previousDisabled false page = false
     ∧ clickPrevious page pageCount = None).
Proof.
  unfold goTo, clickPrevious, clickNext, previousDisabled, nextDisabled, goTo,
    isFirst, isLast. simpl.
  split; [| split].
  - intros target.
    destruct (Z.ltb_spec nextPage 1), (Z.ltb_spec pageCount nextPage); simpl;
      intros [=]. subst. lia.
  - intros Hrange. split.
    + intros Hprev%Z.leb_gt.
      destruct (Z.ltb_spec (page - 1) 1), (Z.ltb_spec pageCount (page - 1)); simpl;
        try lia. done.
    + intros Hnext%Z.leb_gt.
      destruct (Z.ltb_spec (page + 1) 1), (Z.ltb_spec pageCount (page + 1)); simpl;
        try lia. done.
  - intros Hcount Hpage. split; [apply Z.leb_le; lia |].
    split; [apply Z.leb_gt; lia |].
    destruct (Z.ltb_spec (page - 1) 1), (Z.ltb_spec pageCount (page - 1)); simpl;
      try lia; done.
Qed.

Lemma pagination_buttons_witness :
  clickPrevious 5 3 = None ∧ clickNext 2 3 = Some 3.
Proof.
  pose proof (pagination_buttons 5 3 0) as (_ & _ & Hstuck).
  pose proof (pagination_buttons 2 3 0) as (_ & Hmove & _).
  split.
  - by apply Hstuck.
  - by apply Hmove.
Defined.

End PaginationFacts.

(** ** Due windows *)

Module DueFacts.
Import Js Dates DateFacts DatesFacts.

Section WithHost.
Context `{Js.Host}.

(** For a due date that parses, with years that [Date.UTC] reads as
    written, [daysUntil] is the number of UTC days from today to the due
    day, a date is overdue exactly when its day is before today, and due
    within [days] exactly when its day is today or at most [days] days
    ahead. Whatever the date, it is never both overdue and due within a
    window. *)
Theorem due_windows (now target : Z) (s : string) (value : option string) (days : Z) :
  (isOverdue now value = true -> isDueWithin now value days = false)
  ∧ (s ≠ "" -> Date_parse s = Some target -> plain_year target -> plain_year now ->
     daysUntil now (Some s) = Some (Day target - Day now)
     ∧ (isOverdue now (Some s) = true ↔ Day target < Day now)
     ∧ (isDueWithin now (Some s) days = true ↔ 0 <= Day target - Day now <= days)).
Proof.
  split.
  - unfold isOverdue, isDueWithin, number_below.
    destruct (daysUntil now value) as [d |]; [| done].
    intros Hneg%Z.ltb_lt. apply andb_false_iff. left. apply Z.leb_gt. lia.
  - intros Hs Hparse Ht Hn.
    pose proof (daysUntil_day_difference now target s Hs Hparse Ht Hn) as Hdiff.
    split; [done |]. unfold isOverdue, isDueWithin, number_below. rewrite Hdiff.
    split.
    + rewrite Z.ltb_lt. lia.
    + rewrite andb_true_iff, !Z.leb_le. lia.
Qed.

End WithHost.

Lemma due_windows_witness :
  isDueWithin (H := SampleHost.host) Samples.noon (Some "2026-11-09") 7 = true
  ∧ isDueWithin (H := SampleHost.host) Samples.noon (Some "2026-11-10") 7 = false.
Proof.
  pose proof (due_windows (H := SampleHost.host) Samples.noon 1794182400000 "2026-11-09"
                None 7) as [_ Hin].
  pose proof (due_windows (H := SampleHost.host) Samples.noon 1794268800000 "2026-11-10"
                None 7) as [_ Hout].
  destruct Hin as (_ & _ & Hin);
    [done | done | by apply plain_year_since_1969 | by apply plain_year_since_1969 |].
  destruct Hout as (_ & _ & Hout);
    [done | done | by apply plain_year_since_1969 | by apply plain_year_since_1969 |].
  split.
  - apply Hin. by vm_compute.
  - apply not_true_is_false. intros Hd. apply Hout in Hd.
    vm_compute in Hd. destruct Hd as [_ Hd]. by apply Hd.
Defined.

End DueFacts.

(** ** The table cells *)

Module TableFacts.
Import Js Dates RequirementsClient StatusFacts ArchiveFacts WorkflowFacts.

(** The buttons of a row agree with the guards of the handlers. When the
    complete button is enabled, [handleComplete] sends the request. The
    trash button of a row in triage dismisses; otherwise it is rendered
    exactly when the record is not archived, and then [archiveRequirement]
    goes on to its prompt and sends a given reason; a row without trash
    button would be left alone by [archiveRequirement]. The checkbox of
    the selection column is rendered exactly for rows [toggleSelection]
    acts on. *)
Theorem buttons_match_guards
    (completingId : option string) (record : Requirement) (email : option string)
    (text : string) (response : Settled Requirement)
    (latest : Settled (option (list Requirement))) (st : State)
    (ids : list string) (checked : bool) :
  (completeDisabled completingId record = false ->
   head (handleComplete email record response latest st).2
   = Some (Post ("/requirements/" +:+ id record +:+ "/complete") (CompleteBody email)))
  ∧ (status record = Some "PENDING_REVIEW" -> trashButton record = Some DismissButton)
  ∧ (trashButton record = Some ArchiveButton ->
     trim text ≠ "" ->
     head (archiveRequirement record (Some text) response latest st).2
     = Some (archive_call (Literal (trim text)) record))
  ∧ (trashButton record = None ->
     ∀ answer, archiveRequirement record answer response latest st = (st, []))
  ∧ (selectCell ids record = None -> toggleSelection record checked st = st)
  ∧ (selectCell ids record ≠ None ->
     id record ∈ selectedIds (toggleSelection record true st)).
Proof.
  unfold completeDisabled, trashButton, hasRetentionHold, selectCell, strict_eq.
  split; [| split; [| split; [| split; [| split]]]].
  - intros Henabled.
    apply orb_false_iff in Henabled as [Henabled Hp].
    apply orb_false_iff in Henabled as [Henabled _].
    apply orb_false_iff in Henabled as [_ Hd].
    unfold handleComplete, strict_eq. rewrite Hd, Hp. simpl.
    by destruct response; [destruct latest |].
  - intros Hs. by rewrite (bool_decide_eq_true_2 _ Hs).
  - destruct (bool_decide (status record = Some "PENDING_REVIEW")); [done |].
    destruct (_ || _) eqn:Hhold; [done |]. intros _ Htext.
    unfold archiveRequirement, strict_eq. rewrite Hhold.
    rewrite bool_decide_eq_false_2 by done.
    by destruct response; [destruct latest |].
  - destruct (bool_decide (status record = Some "PENDING_REVIEW")); [done |].
    destruct (_ || _) eqn:Hhold; [| done]. intros _ answer.
    unfold archiveRequirement, strict_eq. by rewrite Hhold.
  - unfold toggleSelection, strict_eq.
    by destruct (bool_decide (status record = Some "PENDING_REVIEW")).
  - unfold toggleSelection, strict_eq.
    destruct (bool_decide (status record = Some "PENDING_REVIEW")); [| done].
    intros _. simpl. case_bool_decide as Hin; [done |].
    apply elem_of_app. right. by apply list_elem_of_singleton.
Qed.

Lemma buttons_match_guards_witness :
  archiveRequirement (Samples.requirement "r7" (Some "ARCHIVED") None None) (Some "old")
    (Failed OtherFailure) (Failed OtherFailure) Samples.page_state
  = (Samples.page_state, []).
Proof.
  pose proof (buttons_match_guards None
                (Samples.requirement "r7" (Some "ARCHIVED") None None) None "old"
                (Failed OtherFailure) (Failed OtherFailure) Samples.page_state [] true)
    as (_ & _ & _ & Hnone & _).
  by apply Hnone.
Defined.

Section WithHost.
Context `{Js.Host}.

(** The badges of the status and alerts columns. The status column shows
    the overdue badge exactly for an overdue record that is not archived
    and whose archive state is not pending; an archive state of pending
    shows "pending approval" whatever the raw status and the due date. The
    alerts column shows its overdue badge exactly for an overdue record
    whose raw status is not [DONE], archived or not. *)
Theorem overdue_badges (now : Z) (record : Requirement) :
  (statusCell now record = Badge variant_danger (Translated "statuses.overdue")
   ↔ archive_state record ≠ Some "pending"
     ∧ ¬ archived record
     ∧ isOverdue now (due_date record) = true)
  ∧ (archive_state record = Some "pending" ->
     statusCell now record
     = Badge variant_warning (Translated "requirements.detail.pendingApproval"))
  ∧ (alertsCell now record = Badge variant_danger (Translated "statuses.overdue")
     ↔ status record ≠ Some "DONE" ∧ isOverdue now (due_date record) = true).
Proof.
  split; [| split].
  - unfold statusCell, strict_eq.
    destruct (bool_decide_reflect (archive_state record = Some "pending")) as [Hp | Hp].
    { split; [done | by intros [? _]]. }
    destruct (bool_decide_reflect (archive_state record = Some "archived")) as [Ha | Ha].
    { split; [done |]. intros (_ & Hna & _). destruct Hna. by left. }
    destruct (bool_decide_reflect (archive_state record = Some "deleted")) as [Hd | Hd].
    { split; [done |]. intros (_ & Hna & _). destruct Hna. right. by left. }
    rewrite <- deriveUiStatus_overdue_iff.
    destruct (deriveUiStatus now record); simpl; split; try done; by intros [_ ?].
  - intros Hp. unfold statusCell, strict_eq. by rewrite (bool_decide_eq_true_2 _ Hp).
  - unfold alertsCell, strict_eq, isOverdue, number_below.
    destruct (bool_decide_reflect (status record = Some "DONE")) as [Hd | Hd].
    { split; [done | by intros [? _]]. }
    destruct (daysUntil now (due_date record)) as [d |]; [| split; [done | by intros [_ ?]]].
    destruct (Z.ltb_spec d 0); [done |].
    destruct (d =? 0); [split; [done | by intros [_ ?]] |].
    destruct ((0 <? d) && (d <=? 7)); split; try done; by intros [_ ?].
Qed.

End WithHost.

Lemma overdue_badges_witness :
  statusCell (H := SampleHost.host) Samples.noon
    (Samples.requirement "r1" (Some "OPEN") (Some "2026-10-01") (Some "pending"))
  = Badge variant_warning (Translated "requirements.detail.pendingApproval").
Proof.
  by apply (overdue_badges (H := SampleHost.host) Samples.noon
              (Samples.requirement "r1" (Some "OPEN") (Some "2026-10-01") (Some "pending"))).
Defined.

End TableFacts.

(** ** The filter panel *)

Module PanelToggleFacts.
Import Js RequirementsClient QueryFacts FilterFacts.

(** Ticking a due filter in the panel flips that filter and no other:
    afterwards it is selected exactly when it was not before, every other
    filter is as before, and a selection without repetition stays without
    repetition. The same holds for a status filter other than archived,
    apart from archived, which it removes. *)
Theorem toggle_flips_one
    (value other : DueFilter) (prev : list DueFilter)
    (bucket other_bucket : StatusFilter) (statuses : list StatusFilter) :
  (value ∈ toggleDueFilter value prev ↔ value ∉ prev)
  ∧ (other ≠ value -> other ∈ toggleDueFilter value prev ↔ other ∈ prev)
  ∧ (NoDup prev -> NoDup (toggleDueFilter value prev))
  ∧ (bucket ≠ archived ->
     (bucket ∈ toggleStatusFilter bucket statuses ↔ bucket ∉ statuses)
     ∧ (other_bucket ≠ bucket -> other_bucket ≠ archived ->
        other_bucket ∈ toggleStatusFilter bucket statuses ↔ other_bucket ∈ statuses))
  ∧ (NoDup statuses -> NoDup (toggleStatusFilter bucket statuses)).
Proof.
  split; [| split; [| split; [| split]]].
  - unfold toggleDueFilter. case_bool_decide as Hin.
    + rewrite list_elem_of_filter. split; [by intros [? _] | done].
    + rewrite elem_of_app, list_elem_of_singleton. split; [done | by right].
  - intros Hne. unfold toggleDueFilter. case_bool_decide as Hin.
    + rewrite list_elem_of_filter. split; [by intros [_ ?] | done].
    + rewrite elem_of_app, list_elem_of_singleton. split; [by intros [? | ?] | by left].
  - intros Hnd. unfold toggleDueFilter. case_bool_decide as Hin.
    + by apply NoDup_filter.
    + apply NoDup_app. split; [done |]. split; [| apply NoDup_singleton].
      by intros f Hf ->%list_elem_of_singleton.
  - intros Hbucket. unfold toggleStatusFilter.
    rewrite (bool_decide_eq_false_2 (bucket = archived)) by done.
    split.
    + case_bool_decide as Hin.
      * rewrite list_elem_of_filter.
        apply list_elem_of_filter in Hin as [_ Hin].
        split; [by intros [? _] | done].
      * rewrite elem_of_app, list_elem_of_singleton.
        split; [| by right]. intros _ Hold. apply Hin.
        by apply list_elem_of_filter.
    + intros Hne Harch. case_bool_decide as Hin.
      * rewrite !list_elem_of_filter. split; [by intros (_ & _ & ?) | done].
      * rewrite elem_of_app, list_elem_of_singleton, list_elem_of_filter.
        split; [by intros [[_ ?] | ?] | by left].
  - intros Hnd. unfold toggleStatusFilter.
    repeat case_bool_decide; repeat apply NoDup_filter; try done.
    + apply NoDup_singleton.
    + apply NoDup_app. split; [by apply NoDup_filter |].
      split; [| apply NoDup_singleton].
      by intros f Hf ->%list_elem_of_singleton.
Qed.

Lemma toggle_flips_one_witness :
  due7 ∈ toggleDueFilter due7 [overdue]
  ∧ NoDup (toggleStatusFilter triage [archived]).
Proof.
  pose proof (toggle_flips_one due7 overdue [overdue] triage active [archived])
    as (Hflip & _ & _ & _ & Hnd).
  split.
  - apply Hflip. by intros ?%list_elem_of_singleton.
  - apply Hnd. apply NoDup_singleton.
Defined.

(** For any URL, the [due] value asked from the server is absent when no
    known due token is in the URL, and otherwise lists the tokens of the
    decoded filters: each known token once, in the order overdue, due7,
    due30. *)
Theorem request_due_canonical
    (searchParams : option URLSearchParams.t) (page : Z)
    (statuses : list StatusFilter) :
  let decoded := parseDueFilters searchParams in
  NoDup decoded
  ∧ (decoded `sublist_of` dueFilterOptions)
  ∧ query_due (queryParams page decoded statuses)
    = (if bool_decide (decoded = []) then None
       else Some (join "," (DueFilter_token <$> decoded)))
  ∧ (decoded ≠ [] ->
     ∀ value, query_due (queryParams page decoded statuses) = Some value ->
       split "," value = DueFilter_token <$> decoded).
Proof.
  intros decoded.
  assert (Hsub : decoded `sublist_of` dueFilterOptions).
  { subst decoded. destruct searchParams as [params |]; unfold parseDueFilters;
      [| apply sublist_nil_l].
    destruct (falsy _); [apply sublist_nil_l | apply sublist_filter]. }
  split; [| split; [done | split]].
  - eapply sublist_NoDup; [| exact Hsub]. by apply (bool_decide_unpack _).
  - unfold queryParams. simpl. by repeat case_bool_decide.
  - intros Hne value. unfold queryParams. simpl.
    rewrite bool_decide_eq_true_2 by done. intros [= <-].
    apply split_join.
    + intros Hnil. by apply fmap_nil_inv in Hnil.
    + apply Forall_fmap, Forall_forall. intros f _. apply DueFilter_token_plain.
Qed.

Lemma request_due_canonical_witness :
  query_due
    (queryParams 1 (parseDueFilters (Some [("due", "due30, bogus,overdue,due30")])) [])
  = Some "overdue,due30".
Proof.
  pose proof (request_due_canonical (Some [("due", "due30, bogus,overdue,due30")]) 1 [])
    as (_ & _ & Hdue & _).
  exact Hdue.
Defined.

End PanelToggleFacts.

(** ** The status table and the triage panel's records *)

Module PresentationFacts.
Import Js Dates RequirementsClient StatusFacts SelectionFacts WorkflowFacts.

Section WithHost.
Context `{Js.Host}.

Ltac settle :=
  repeat match goal with
    | |- _ ∧ _ => split
    | |- _ ↔ _ => split
    | |- ¬ _ => intro
    | |- _ -> _ => intro
    | Hand : _ ∧ _ |- _ => destruct Hand
    | Hor : _ ∨ _ |- _ => destruct Hor
    end;
  try congruence;
  try (left; congruence); try (right; congruence);
  try match goal with
    | Hna : ¬ _ |- _ => exfalso; apply Hna; solve [auto]
    end.

(** The inverse table of [deriveUiStatus]: what a presentation status
    says about the record. [OVERDUE] means not archived and due before
    today, whatever the raw status, so also for [DONE]. Each of the other
    four means not archived, not overdue, and: raw status [PENDING_REVIEW]
    for [NEEDS_TRIAGE]; [DONE] or [READY] for [COMPLETED]; [REVIEW] for
    [NEEDS_REVIEW]; any other raw status, or none, for [OPEN]. *)
Theorem deriveUiStatus_table (now : Z) (record : Requirement) :
  let live := ¬ archived record ∧ isOverdue now (due_date record) = false in
  (deriveUiStatus now record = OVERDUE
   ↔ ¬ archived record ∧ isOverdue now (due_date record) = true)
  ∧ (deriveUiStatus now record = NEEDS_TRIAGE
     ↔ live ∧ status record = Some "PENDING_REVIEW")
  ∧ (deriveUiStatus now record = COMPLETED
     ↔ live ∧ (status record = Some "DONE" ∨ status record = Some "READY"))
  ∧ (deriveUiStatus now record = NEEDS_REVIEW
     ↔ live ∧ status record = Some "REVIEW")
  ∧ (deriveUiStatus now record = OPEN
     ↔ live
       ∧ status record ≠ Some "PENDING_REVIEW" ∧ status record ≠ Some "DONE"
       ∧ status record ≠ Some "READY" ∧ status record ≠ Some "REVIEW").
Proof.
  intros live. subst live. unfold archived, isOverdue.
  unfold deriveUiStatus, strict_eq, nullish.
  destruct (status record) as [raw |] eqn:Hraw; simpl;
    repeat match goal with
      | |- context [bool_decide ?P] => destruct (bool_decide_reflect P); simpl
      end;
    destruct (number_below (daysUntil now (due_date record)) 0) eqn:Hbelow;
    settle.
Qed.

End WithHost.

Lemma deriveUiStatus_table_witness :
  deriveUiStatus (H := SampleHost.host) Samples.noon
    (Samples.requirement "r1" (Some "DONE") (Some "2026-10-01") None) = OVERDUE.
Proof.
  apply (deriveUiStatus_table (H := SampleHost.host) Samples.noon
           (Samples.requirement "r1" (Some "DONE") (Some "2026-10-01") None)).
  split; [by intros [? | [? | ?]] | reflexivity].
Defined.

(** The records handed to the triage panel are rows of the mirror whose
    id is selected. While every selected id has a row in triage, the
    panel is shown exactly when something is selected; and when no two
    rows share an id, every record in the panel is in triage. *)
Theorem selectedRequirements_in_triage (st : State) :
  (∀ item, item ∈ selectedRequirements st ->
     item ∈ requirementRows st ∧ id item ∈ selectedIds st)
  ∧ (selection_ok st ->
     (selectedRequirements st = [] ↔ selectedIds st = [])
     ∧ (NoDup (id <$> requirementRows st) ->
        ∀ item, item ∈ selectedRequirements st ->
          status item = Some "PENDING_REVIEW")).
Proof.
  unfold selectedRequirements. split.
  - intros item [Hid Hrow]%list_elem_of_filter. done.
  - intros Hok. split; [split |].
    + intros Hnone. destruct (selectedIds st) as [| key keys] eqn:Hkeys; [done |].
      destruct (Hok key) as (item & Hrow & Hid & _); [rewrite Hkeys; constructor |].
      assert (Hin : item ∈ filter (λ item, id item ∈ key :: keys) (requirementRows st)).
      { apply list_elem_of_filter. split; [| done]. subst key. constructor. }
      rewrite Hnone in Hin. by apply elem_of_nil in Hin.
    + intros ->. induction (requirementRows st) as [| row rows IH]; [done |].
      rewrite filter_cons_False; [done |]. by intros ?%elem_of_nil.
    + intros Hnd item [Hid Hrow]%list_elem_of_filter.
      destruct (Hok _ Hid) as (other & Hother & Hsame & Hstatus).
      assert (other = item) as <-; [| done].
      apply list_elem_of_lookup in Hother as [i Hi].
      apply list_elem_of_lookup in Hrow as [j Hj].
      assert (i = j) as ->.
      { eapply NoDup_lookup; [exact Hnd | |]; rewrite list_lookup_fmap.
        - by rewrite Hi.
        - rewrite Hj. simpl. congruence. }
      congruence.
Qed.

Lemma selectedRequirements_in_triage_witness :
  Forall (λ item, status item = Some "PENDING_REVIEW")
    (selectedRequirements Samples.page_state).
Proof.
  apply Forall_forall.
  pose proof (selectedRequirements_in_triage Samples.page_state) as [_ Hok].
  destruct Hok as [_ Htriage].
  - intros key Hkey. simpl in Hkey. apply list_elem_of_singleton in Hkey as ->.
    eexists. split; [constructor |]. by split.
  - apply Htriage. by apply (bool_decide_unpack _).
Defined.

End PresentationFacts.
